(** * System report generator of protoplaster: a shallow embedding

    Source: [protoplaster/report_generators/system_report/protoplaster_system_report.py].

    The generator loads a YAML document that maps command names to command
    objects, runs every command through a shell (falling back along the
    [on-fail] chain), post-processes the captured output with summary
    scripts and returns the ordered list of files of the report archive.

    Everything the script obtains from its host (subprocesses, the template
    engine, the files next to the module, Python's [str] and [int]) is
    gathered in a [Platform]; the script itself is embedded in a
    state-and-exception monad over the host's world and a trace of the
    observable events. *)

From Stdlib Require Import String Ascii List ZArith Bool Lia DecimalString.
Import ListNotations.

Local Open Scope string_scope.
Local Open Scope list_scope.

Set Warnings "-register-all".

(** ** Loaded YAML documents

    What [yaml.safe_load] returns, restricted to the scalars the consumed
    shape can hold.  A mapping is an association list in the order of the
    Python dict ([dict.items()] iterates in that order); a lookup takes the
    first binding, and a Python dict binds a key once.  Keys are strings. *)

Inductive yaml : Type :=
| YNull
| YBool (b : bool)
| YInt (z : Z)
| YStr (s : string)
| YList (items : list yaml)
| YMap (entries : list (string * yaml)).

Fixpoint lookup (key : string) (entries : list (string * yaml)) : option yaml :=
  match entries with
  | [] => None
  | (k, v) :: rest => if String.eqb k key then Some v else lookup key rest
  end.

Definition has_key (key : string) (entries : list (string * yaml)) : bool :=
  match lookup key entries with Some _ => true | None => false end.

(** [value == "text"] for a loaded value and a string literal. *)
Definition eq_str (v : yaml) (text : string) : bool :=
  match v with
  | YStr s => String.eqb s text
  | _ => false
  end.

(** Python truthiness, as used by [if config.output_file:]. *)
Definition truthy (v : yaml) : bool :=
  match v with
  | YNull => false
  | YBool b => b
  | YInt z => negb (Z.eqb z 0)
  | YStr s => negb (String.eqb s "")
  | YList items => match items with [] => false | _ => true end
  | YMap entries => match entries with [] => false | _ => true end
  end.

(** [sub in text] on Python strings. *)
Definition contains (sub text : string) : bool :=
  match String.index 0 sub text with Some _ => true | None => false end.

Fixpoint chars (s : string) : list string :=
  match s with
  | EmptyString => []
  | String c rest => String c EmptyString :: chars rest
  end.

(** ** The static-assets directory

    A regular file holds bytes; a directory lists its entries in the order
    [os.walk] finds them. *)

Inductive fsnode : Type :=
| File (content : string)
| Dir (children : list (string * fsnode)).

Fixpoint fs_lookup (name : string) (children : list (string * fsnode)) : option fsnode :=
  match children with
  | [] => None
  | (k, n) :: rest => if String.eqb k name then Some n else fs_lookup name rest
  end.

(** ** The classes of the script *)

(** [class SummaryConfig]: [title] and [script] are stored as loaded. *)
Record SummaryConfig : Type := mkSummaryConfig {
  summary_title : yaml;
  summary_script : yaml
}.

(** [class CommandConfig].  [output_file] is [config.get("output", None)];
    [on_fail] is the configuration built from [config["on-fail"]]. *)
Inductive CommandConfig : Type :=
| mkCommandConfig (name : string) (script : yaml)
    (summary_configs : list SummaryConfig) (output_file : yaml)
    (on_fail : option CommandConfig).

Definition name (c : CommandConfig) : string :=
  match c with mkCommandConfig n _ _ _ _ => n end.
Definition script (c : CommandConfig) : yaml :=
  match c with mkCommandConfig _ s _ _ _ => s end.
Definition summary_configs (c : CommandConfig) : list SummaryConfig :=
  match c with mkCommandConfig _ _ l _ _ => l end.
Definition output_file (c : CommandConfig) : yaml :=
  match c with mkCommandConfig _ _ _ o _ => o end.
Definition on_fail (c : CommandConfig) : option CommandConfig :=
  match c with mkCommandConfig _ _ _ _ f => f end.

(** [@dataclass SubReportSummary]. *)
Record SubReportSummary : Type := mkSubReportSummary {
  title : yaml;
  content : string
}.

(** [@dataclass SubReportResult]. *)
Record SubReportResult : Type := mkSubReportResult {
  result_name : string;
  raw_output : string;
  result_output_file : yaml;
  summaries : list SubReportSummary
}.

(** An element of the list [files]: [(name, content)]. *)
Definition file_entry : Type := (yaml * string)%type.

(** ** The host *)

Record Platform : Type := mkPlatform {
  World : Type;
  (** [subprocess.check_output(cmd, shell=True, text=True,
      stderr=subprocess.STDOUT, env=os.environ | extra, input=input)]:
      the captured text, or [None] when the call raises (non-zero exit
      status, spawn error, undecodable output). *)
  check_output :
    string -> list (string * string) -> option string -> World -> World * option string;
  (** Python's [str(value)] as used by an f-string. *)
  py_str : yaml -> string;
  (** Python's [int(text)]; [None] when it raises [ValueError]. *)
  py_int : string -> option Z;
  (** [os.path.dirname(__file__)]. *)
  module_dir : string;
  (** [generate_html]: the template engine on [report_template.html];
      [None] when reading or rendering raises. *)
  render_report : list SubReportResult -> World -> option string;
  (** The text of [style.css]; [None] when it cannot be read. *)
  style_css : World -> option string;
  (** The tree at [static/]; [None] when there is no such directory. *)
  static_dir : World -> option fsnode;
  (** [open(path, "r").read()] on a file that holds these bytes: the bytes
      decoded with the encoding of the locale, line ends translated to
      newlines; [None] when decoding raises. *)
  read_text : string -> option string
}.

(** ** Observable events, in the order they happen.

    The progress line of [generate_system_report] (lines 162-176, 182 and
    184) is an animation paced by wall-clock time; it is not part of the
    trace.  The worker thread is joined before the loop goes on, so the loop
    body is the sequential call [sub_report = run_command(config)]. *)

Inductive event : Type :=
| Printed (line : string)
| Spawned (cmd : string)
| ArchiveOpened
| ArchiveEntry (name content : string).

(** ** Results of a computation *)

Inductive outcome (A : Type) : Type :=
| Ok (a : A)
| SysExit (status : Z)
| Raised.

Arguments Ok {A} a.
Arguments SysExit {A} status.
Arguments Raised {A}.

Definition is_ok {A : Type} (r : outcome A) : bool :=
  match r with Ok _ => true | _ => false end.

(** ** The script, over a platform *)

Section Script.

Context (P : Platform).

(** The state a computation threads: the host's world and the trace. *)
Record state : Type := mkState {
  world : World P;
  trace : list event
}.

Definition M (A : Type) : Type := state -> state * outcome A.

Definition ret {A : Type} (a : A) : M A := fun st => (st, Ok a).

Definition bind {A B : Type} (m : M A) (k : A -> M B) : M B :=
  fun st =>
    match m st with
    | (st', Ok a) => k a st'
    | (st', SysExit status) => (st', SysExit status)
    | (st', Raised) => (st', Raised)
    end.

(** An uncaught Python exception. *)
Definition raise {A : Type} : M A := fun st => (st, Raised).

(** [sys.exit(status)]. *)
Definition sys_exit {A : Type} (status : Z) : M A := fun st => (st, SysExit status).

(** [try: body except: handler], the bare [except] of the script: it also
    catches [SystemExit]. *)
Definition try_except {A : Type} (body handler : M A) : M A :=
  fun st =>
    match body st with
    | (st', Ok a) => (st', Ok a)
    | (st', _) => handler st'
    end.

Definition emit (e : event) : M unit :=
  fun st => (mkState (world st) (trace st ++ [e]), Ok tt).

(** [print(line)]. *)
Definition print (line : string) : M unit := emit (Printed line).

Notation "x <- m ;; k" := (bind m (fun x => k))
  (at level 61, m at next level, right associativity).
Notation "m ;;; k" := (bind m (fun _ => k))
  (at level 61, right associativity).

Fixpoint mapM {A B : Type} (f : A -> M B) (l : list A) : M (list B) :=
  match l with
  | [] => ret []
  | a :: rest => b <- f a ;; bs <- mapM f rest ;; ret (b :: bs)
  end.

(** *** Python operations on loaded values *)

(** [key in container]. *)
Definition py_in (key : string) (container : yaml) : M bool :=
  match container with
  | YMap entries => ret (has_key key entries)
  | YList items => ret (existsb (fun v => eq_str v key) items)
  | YStr s => ret (contains key s)
  | _ => raise
  end.

(** [container[key]] with a string key. *)
Definition py_getitem (container : yaml) (key : string) : M yaml :=
  match container with
  | YMap entries =>
      match lookup key entries with
      | Some v => ret v
      | None => raise
      end
  | _ => raise
  end.

(** [container.get(key, default)]. *)
Definition py_get (container : yaml) (key : string) (default : yaml) : M yaml :=
  match container with
  | YMap entries =>
      match lookup key entries with
      | Some v => ret v
      | None => ret default
      end
  | _ => raise
  end.

(** [for c in value]. *)
Definition py_iter (value : yaml) : M (list yaml) :=
  match value with
  | YList items => ret items
  | YMap entries => ret (map (fun kv => YStr (fst kv)) entries)
  | YStr s => ret (map YStr (chars s))
  | _ => raise
  end.

(** *** Subprocesses *)

Definition subprocess_check_output (cmd : string) (env : list (string * string))
    (input : option string) : M string :=
  fun st =>
    let (w, r) := check_output P cmd env input (world st) in
    (mkState w (trace st ++ [Spawned cmd]),
     match r with Some out => Ok out | None => Raised end).

(** [get_cmd_output(cmd)]. *)
Definition get_cmd_output (cmd : string) : M string :=
  subprocess_check_output cmd [] None.

(** [is_root()]. *)
Definition is_root : M bool :=
  out <- get_cmd_output "id -u" ;;
  match py_int P out with
  | Some uid => ret (Z.eqb uid 0)
  | None => raise
  end.

(** [f"sh -c '{script}'"]. *)
Definition sh_c (script : yaml) : string := "sh -c '" ++ py_str P script ++ "'".

(** *** Configuration loading *)

(** [SummaryConfig.__init__]. *)
Definition SummaryConfig_init (config : yaml) : M SummaryConfig :=
  has_title <- py_in "title" config ;;
  complete <- (if has_title then py_in "run" config else ret false) ;;
  if (complete : bool) then
    t <- py_getitem config "title" ;;
    s <- py_getitem config "run" ;;
    ret (mkSummaryConfig t s)
  else
    print "Error: summary config is incomplete" ;;;
    sys_exit 1.

Definition insufficient_error (script : yaml) : string :=
  "Error: You have insufficient permissions to run " ++ py_str P script
  ++ ". No system report will be generated.".

Definition insufficient_warning (script : yaml) : string :=
  "Warning: You have insufficient permissions to run " ++ py_str P script
  ++ ". Output from this command will be skipped in the system report.".

Definition invalid_error (name : string) : string :=
  "Error: " ++ name ++ " config is invalid".

(** Lines 40-49: the privilege gate. *)
Definition privilege_gate (config script : yaml) : M unit :=
  has_superuser <- py_in "superuser" config ;;
  if (has_superuser : bool) then
    root <- is_root ;;
    if (root : bool) then ret tt
    else
      superuser <- py_getitem config "superuser" ;;
      if eq_str superuser "required" then
        print (insufficient_error script) ;;;
        sys_exit 1
      else
        print (insufficient_warning script)
  else ret tt.

(** Lines 32-37: the validity check. *)
Definition check_fields (name : string) (config : yaml) : M unit :=
  has_run <- py_in "run" config ;;
  required_fields_present <- (if has_run then py_in "output" config else ret false) ;;
  has_superuser <- py_in "superuser" config ;;
  superuser_correct <-
    (if negb has_superuser then ret true
     else
       superuser <- py_getitem config "superuser" ;;
       ret (eq_str superuser "required" || eq_str superuser "preferred")) ;;
  if negb required_fields_present || negb superuser_correct then
    print (invalid_error name) ;;;
    sys_exit 1
  else ret tt.

(** Lines 50-55, given the computation [build_on_fail] that the recursive
    call [CommandConfig((name, config["on-fail"]))] stands for. *)
Definition load_rest (name : string) (config script : yaml)
    (build_on_fail : yaml -> M CommandConfig) : M CommandConfig :=
  summary <- py_get config "summary" (YList []) ;;
  summary_items <- py_iter summary ;;
  summary_configs <- mapM SummaryConfig_init summary_items ;;
  output_file <- py_get config "output" YNull ;;
  has_on_fail <- py_in "on-fail" config ;;
  on_fail <-
    (if (has_on_fail : bool) then
       fallback <- py_getitem config "on-fail" ;;
       c <- build_on_fail fallback ;;
       ret (Some c)
     else ret None) ;;
  ret (mkCommandConfig name script summary_configs output_file on_fail).

(** [CommandConfig.__init__], given [build_on_fail]. *)
Definition CommandConfig_body (name : string) (config : yaml)
    (build_on_fail : yaml -> M CommandConfig) : M CommandConfig :=
  check_fields name config ;;;
  script <- py_getitem config "run" ;;
  privilege_gate config script ;;;
  load_rest name config script build_on_fail.

(** [CommandConfig.__init__].  The recursive call is on the value bound to
    [on-fail] in [config], which is the value [config["on-fail"]] hands to
    it (see [CommandConfig_init_eq]). *)
Fixpoint CommandConfig_init (name : string) (config : yaml) {struct config}
    : M CommandConfig :=
  CommandConfig_body name config
    (fun _ =>
       match config with
       | YMap entries =>
           (fix find (l : list (string * yaml)) : M CommandConfig :=
              match l with
              | [] => raise
              | (k, v) :: rest =>
                  if String.eqb k "on-fail" then CommandConfig_init name v
                  else find rest
              end) entries
       | _ => raise
       end).

(** [read_commands], on the document [read_config(filename)] returned. *)
Definition read_commands (document : yaml) : M (list CommandConfig) :=
  match document with
  | YMap entries => mapM (fun item => CommandConfig_init (fst item) (snd item)) entries
  | _ => raise
  end.

(** *** Running a command *)

Definition empty_summary : string := "this summary is empty".

Definition scripts_env : list (string * string) :=
  [("PROTOPLASTER_SCRIPTS", (module_dir P ++ "/scripts")%string)].

(** Lines 127-143: one round of the summary loop. *)
Definition summarize (out : string) (summary_config : SummaryConfig)
    : M SubReportSummary :=
  try_except
    (summary_content <-
       subprocess_check_output (sh_c (summary_script summary_config))
         scripts_env (Some out) ;;
     ret (mkSubReportSummary (summary_title summary_config) summary_content))
    (ret (mkSubReportSummary (summary_title summary_config) empty_summary)).

(** [run_command]. *)
Fixpoint run_command (config : CommandConfig) : M (option SubReportResult) :=
  match config with
  | mkCommandConfig name script summary_configs output_file on_fail =>
      try_except
        (out <- get_cmd_output (sh_c script) ;;
         summaries <- mapM (summarize out) summary_configs ;;
         ret (Some (mkSubReportResult name out output_file summaries)))
        (match on_fail with
         | Some fallback => run_command fallback
         | None => ret None
         end)
  end.

(** *** Assembling the file list *)

(** [generate_html(sub_reports)]. *)
Definition generate_html (sub_reports : list SubReportResult) : M string :=
  fun st =>
    match render_report P sub_reports (world st) with
    | Some html => (st, Ok html)
    | None => (st, Raised)
    end.

(** Lines 189-190. *)
Definition read_style : M string :=
  fun st =>
    match style_css P (world st) with
    | Some css => (st, Ok css)
    | None => (st, Raised)
    end.

Definition file_names (children : list (string * fsnode)) : list string :=
  flat_map (fun kn => match snd kn with File _ => [fst kn] | Dir _ => [] end) children.

(** Lines 194-196, for the names [files] that [os.walk] lists in some
    directory of the tree: every name is opened in [dir] and read in text
    mode.  [None] when [open] raises (no such file, a directory) or when
    [read] raises (content that does not decode). *)
Fixpoint read_listed (dir : list (string * fsnode)) (files : list string)
    : option (list file_entry) :=
  match files with
  | [] => Some []
  | file :: rest =>
      match fs_lookup file dir with
      | Some (File content) =>
          match read_text P content with
          | Some text =>
              match read_listed dir rest with
              | Some entries => Some ((YStr ("static/" ++ file)%string, text) :: entries)
              | None => None
              end
          | None => None
          end
      | _ => None
      end
  end.

Definition app_opt {A : Type} (a b : option (list A)) : option (list A) :=
  match a, b with
  | Some x, Some y => Some (x ++ y)
  | _, _ => None
  end.

(** The rounds of the loop [for root, dirs, files in os.walk(dir)] from the
    directory [root] of the tree on, where [dir] lists the directory the
    function was called on.  [os.walk] is top-down: it yields [root], then
    walks the subdirectories of [root] in listing order.  The round for
    [root] reads the files listed in [root] (lines 194-196) and then calls
    [read_files_from_dir] on every subdirectory of [root] (lines 197-198). *)
Fixpoint walk_rounds (dir : list (string * fsnode)) (root : fsnode) {struct root}
    : option (list file_entry) :=
  match root with
  | File _ => Some []
  | Dir children =>
      app_opt (read_listed dir (file_names children))
        (app_opt
           ((fix calls (l : list (string * fsnode)) : option (list file_entry) :=
               match l with
               | [] => Some []
               | (_, node) :: rest =>
                   match node with
                   | File _ => calls rest
                   | Dir sub => app_opt (walk_rounds sub node) (calls rest)
                   end
               end) children)
           ((fix rounds (l : list (string * fsnode)) : option (list file_entry) :=
               match l with
               | [] => Some []
               | (_, node) :: rest =>
                   match node with
                   | File _ => rounds rest
                   | Dir _ => app_opt (walk_rounds dir node) (rounds rest)
                   end
               end) children))
  end.

(** [read_files_from_dir(dir, dest)]: what it appends to [dest]. *)
Definition read_files_from_dir (dir : fsnode) : option (list file_entry) :=
  match dir with
  | File _ => Some []
  | Dir children => walk_rounds children dir
  end.

(** Line 200; [os.walk] yields nothing for a directory that is not there. *)
Definition read_static : M (list file_entry) :=
  fun st =>
    match static_dir P (world st) with
    | None => (st, Ok [])
    | Some tree =>
        match read_files_from_dir tree with
        | Some entries => (st, Ok entries)
        | None => (st, Raised)
        end
    end.

(** Lines 160-184: one round of the loop over [command_configs], on the
    pair [(sub_reports, files)]. *)
Definition report_round (acc : list SubReportResult * list file_entry)
    (config : CommandConfig) : M (list SubReportResult * list file_entry) :=
  sub_report <- run_command config ;;
  match sub_report with
  | Some r =>
      ret (fst acc ++ [r],
           if truthy (output_file config)
           then snd acc ++ [(output_file config, raw_output r)]
           else snd acc)
  | None => ret acc
  end.

Fixpoint foldM {A B : Type} (f : A -> B -> M A) (acc : A) (l : list B) : M A :=
  match l with
  | [] => ret acc
  | b :: rest => acc' <- f acc b ;; foldM f acc' rest
  end.

(** Lines 157-202, after the configuration is loaded. *)
Definition assemble (command_configs : list CommandConfig) : M (list file_entry) :=
  acc <- foldM report_round ([], []) command_configs ;;
  html <- generate_html (fst acc) ;;
  css <- read_style ;;
  static <- read_static ;;
  ret (snd acc ++ [(YStr "system_report_summary.html", html)]
         ++ [(YStr "style.css", css)] ++ static).

(** [generate_system_report]. *)
Definition generate_system_report (document : yaml) : M (list file_entry) :=
  command_configs <- read_commands document ;;
  assemble command_configs.

(** [archive.writestr(filename, content)]; a name that is not a string
    raises. *)
Definition writestr (entry : file_entry) : M unit :=
  match fst entry with
  | YStr filename => emit (ArchiveEntry filename (snd entry))
  | _ => raise
  end.

(** [main] without [--sudo], on the loaded document. *)
Definition main (document : yaml) : M unit :=
  files <- generate_system_report document ;;
  emit ArchiveOpened ;;;
  mapM writestr files ;;;
  ret tt.

End Script.

Arguments print {P} line _.
Arguments ret {P A} a _.
Arguments raise {P A} _.
Arguments sys_exit {P A} status _.
Arguments bind {P A B} m k _.
Arguments try_except {P A} body handler _.
Arguments mapM {P A B} f l.
Arguments foldM {P A B} f acc l.

(** ** The fallback chain of a command, as the specification words it *)

(** The specs of a fallback chain, first attempt first. *)
Fixpoint chain (c : CommandConfig) : list CommandConfig :=
  match c with
  | mkCommandConfig _ _ _ _ None => [c]
  | mkCommandConfig _ _ _ _ (Some fallback) => c :: chain fallback
  end.

(** [first_success P c w ck out wk]: started in world [w], the scripts of
    the chain of [c] fail one after the other up to the attempt of [ck],
    whose script succeeds with captured output [out] and leaves the world
    [wk]. *)
Inductive first_success (P : Platform)
    : CommandConfig -> World P -> CommandConfig -> string -> World P -> Prop :=
| success_here (c : CommandConfig) (w wk : World P) (out : string) :
    check_output P (sh_c P (script c)) [] None w = (wk, Some out) ->
    first_success P c w c out wk
| success_later (c fallback ck : CommandConfig) (w w1 wk : World P) (out : string) :
    check_output P (sh_c P (script c)) [] None w = (w1, None) ->
    on_fail c = Some fallback ->
    first_success P fallback w1 ck out wk ->
    first_success P c w ck out wk.

(** The entries the commands contribute to the archive, from the outcome of
    every command in execution order: one [(outputFile, rawOutput)] pair per
    command that produced a result and whose spec names an output file. *)
Definition output_entries (results : list (CommandConfig * option SubReportResult))
    : list file_entry :=
  flat_map
    (fun cr =>
       match snd cr with
       | Some r =>
           if truthy (output_file (fst cr))
           then [(output_file (fst cr), raw_output r)]
           else []
       | None => []
       end)
    results.

(** The sub-reports handed to the template, in execution order. *)
Definition sub_reports_of (results : list (CommandConfig * option SubReportResult))
    : list SubReportResult :=
  flat_map (fun cr => match snd cr with Some r => [r] | None => [] end) results.

(** What §4.4 asks of the static-asset walk: every regular file anywhere
    under the tree, as [static/<filename>] with its content. *)
Fixpoint static_entries_spec (tree : fsnode) : list file_entry :=
  match tree with
  | File _ => []
  | Dir children =>
      (fix each (l : list (string * fsnode)) : list file_entry :=
         match l with
         | [] => []
         | (name, node) :: rest =>
             match node with
             | File content => (YStr ("static/" ++ name)%string, content) :: each rest
             | Dir _ => static_entries_spec node ++ each rest
             end
         end) children
  end.

(** The configuration with one key removed. *)
Definition without (key : string) (entries : list (string * yaml))
    : list (string * yaml) :=
  filter (fun kv => negb (String.eqb (fst kv) key)) entries.

(** A command object, or a fallback below it, asks for [superuser: required]. *)
Fixpoint requires_root (config : yaml) : bool :=
  match config with
  | YMap entries =>
      match lookup "superuser" entries with
      | Some v => eq_str v "required"
      | None => false
      end
      || (fix find (l : list (string * yaml)) : bool :=
            match l with
            | [] => false
            | (k, v) :: rest =>
                if String.eqb k "on-fail" then requires_root v else find rest
            end) entries
  | _ => false
  end.

(** The process is not root: in every world [id -u] prints a uid that is
    not 0. *)
Definition unprivileged (P : Platform) : Prop :=
  forall w : World P,
    exists (w' : World P) (out : string) (uid : Z),
      check_output P "id -u" [] None w = (w', Some out)
      /\ py_int P out = Some uid /\ uid <> 0%Z.

(** Events configuration loading can cause: diagnostics and the [id -u]
    probe. *)
Definition loader_event (e : event) : Prop :=
  match e with
  | Printed _ => True
  | Spawned cmd => cmd = "id -u"
  | _ => False
  end.

(** One command of the report loop with its outcome. *)
Definition run_one (P : Platform) (config : CommandConfig)
    : M P (CommandConfig * option SubReportResult) :=
  bind (run_command P config) (fun r => ret (config, r)).

(** An entry registered as [static/<filename>]. *)
Definition is_static_entry (e : file_entry) : Prop :=
  exists file : string, fst e = YStr ("static/" ++ file)%string.

(** The [writestr] calls for a list of files whose names are strings. *)
Definition archive_events (files : list file_entry) : list event :=
  flat_map
    (fun e => match fst e with YStr n => [ArchiveEntry n (snd e)] | _ => [] end)
    files.

(** A directory that holds regular files only. *)
Definition flat (children : list (string * fsnode)) : Prop :=
  Forall (fun kn => exists content, snd kn = File content) children.

(** [listed_texts P children texts]: the directory holds regular files
    only, and [texts] lists, in the same order, the name of each file with
    the text that reading it gives. *)
Definition listed_texts (P : Platform) (children : list (string * fsnode))
    (texts : list (string * string)) : Prop :=
  Forall2
    (fun kn nt =>
       fst kn = fst nt
       /\ exists content, snd kn = File content /\ read_text P content = Some (snd nt))
    children texts.

(** The entries [static/<filename>] for a list of names and texts. *)
Definition static_named (texts : list (string * string)) : list file_entry :=
  map (fun nt => (YStr ("static/" ++ fst nt)%string, snd nt)) texts.

(** Two computations that ended on the same failure. *)
Definition same_failure {A B : Type} (r : outcome A) (r' : outcome B) : Prop :=
  match r, r' with
  | SysExit status, SysExit status' => status = status'
  | Raised, Raised => True
  | _, _ => False
  end.

(** A computation that never returns normally. *)
Definition never_ok {P : Platform} {A : Type} (m : M P A) : Prop :=
  forall st, is_ok (snd (m st)) = false.

(** A computation whose events are those of configuration loading. *)
Definition only_loads {P : Platform} {A : Type} (m : M P A) : Prop :=
  forall st, exists evs,
    trace P (fst (m st)) = trace P st ++ evs /\ Forall loader_event evs.

(** How deep the [on-fail] nesting of a command object goes. *)
Fixpoint on_fail_depth (config : yaml) : nat :=
  match config with
  | YMap entries =>
      (fix find (l : list (string * yaml)) : nat :=
         match l with
         | [] => 0
         | (k, v) :: rest =>
             if String.eqb k "on-fail" then S (on_fail_depth v) else find rest
         end) entries
  | _ => 0
  end.

(** ** A small host, for running the script on concrete inputs *)

Module Demo.

Local Open Scope string_scope.

Definition nl : string := String "010"%char EmptyString.

(** [str] on scalars; the examples format strings only (containers are
    rendered by a placeholder, not by their [repr]). *)
Definition str (v : yaml) : string :=
  match v with
  | YNull => "None"
  | YBool true => "True"
  | YBool false => "False"
  | YInt z => NilZero.string_of_int (Z.to_int z)
  | YStr s => s
  | YList _ => "[...]"
  | YMap _ => "{...}"
  end.

Definition digit (c : ascii) : option Z :=
  let n := Z.of_nat (nat_of_ascii c) in
  if ((48 <=? n) && (n <=? 57))%Z then Some (n - 48)%Z else None.

Fixpoint digits (acc : Z) (s : string) : option Z :=
  match s with
  | EmptyString => Some acc
  | String c rest =>
      match digit c with
      | Some d => digits (10 * acc + d)%Z rest
      | None => if String.eqb s nl then Some acc else None
      end
  end.

(** [int] on what [id -u] prints: decimal digits and a newline. *)
Definition int (s : string) : option Z :=
  match s with
  | EmptyString => None
  | String c _ => match digit c with Some _ => digits 0 s | None => None end
  end.

(** The shell of the host.  The world counts the processes spawned so far.
    [cat] copies its input and [head -c 5] keeps five characters of it; a
    command the shell does not know fails. *)
Definition shell (uid : string) (cmd : string) (env : list (string * string))
    (input : option string) (w : nat) : nat * option string :=
  (S w,
   if String.eqb cmd "id -u" then Some (uid ++ nl)
   else if String.eqb cmd "sh -c 'echo fallback-ok'" then Some ("fallback-ok" ++ nl)
   else if String.eqb cmd "sh -c 'df -h'" then Some ("/dev/sda1 40G 12G 28G 30% /" ++ nl)
   else if String.eqb cmd "sh -c 'uname'" then Some ("Linux" ++ nl)
   else if String.eqb cmd "sh -c 'cat'" then input
   else if String.eqb cmd "sh -c 'head -c 5'" then option_map (substring 0 5) input
   else None).

(** Text-mode reading in an ASCII locale: a byte above 127 does not
    decode; CR LF and a lone CR are read as a newline. *)
Fixpoint ascii_text (bytes : string) : option string :=
  match bytes with
  | EmptyString => Some EmptyString
  | String c rest =>
      if (128 <=? nat_of_ascii c)%nat then None
      else
        match ascii_text rest with
        | None => None
        | Some text =>
            if Ascii.eqb c "013"%char then
              match rest with
              | String "010"%char _ => Some text
              | _ => Some (String "010"%char text)
              end
            else Some (String c text)
        end
  end.

Definition render (sub_reports : list SubReportResult) (w : nat) : option string :=
  Some ("<html>"
        ++ String.concat "," (map result_name sub_reports)
        ++ "</html>").

Definition host (uid : string) (static : option fsnode) : Platform :=
  {| World := nat;
     check_output := shell uid;
     py_str := str;
     py_int := int;
     module_dir := "/opt/protoplaster/system_report";
     render_report := render;
     style_css := fun _ => Some "body { margin: 0 }";
     static_dir := fun _ => static;
     read_text := ascii_text |}.

Definition user : Platform := host "1000" (Some (Dir [("logo.svg", File "<svg/>")])).

Definition start (P : Platform) (w : World P) : state P := mkState P w [].

(** The example of §8: [{"net": {"run": "false", "on-fail": {"run": "echo
    fallback-ok", "output": "net.txt"}}}]. *)
Definition net_document : yaml :=
  YMap [("net", YMap [("run", YStr "false");
                      ("on-fail", YMap [("run", YStr "echo fallback-ok");
                                        ("output", YStr "net.txt")])])].

(** The same with an output file declared for the command itself. *)
Definition net_document_with_output : yaml :=
  YMap [("net", YMap [("run", YStr "false");
                      ("output", YStr "net.txt");
                      ("on-fail", YMap [("run", YStr "echo fallback-ok");
                                        ("output", YStr "net.txt")])])].

(** The first example of §8: [{"disk": {"run": "df -h", "output":
    "disk.txt"}}]. *)
Definition disk_document : yaml :=
  YMap [("disk", YMap [("run", YStr "df -h"); ("output", YStr "disk.txt")])].

(** [static/style/print.css]. *)
Definition nested_assets : fsnode :=
  Dir [("style", Dir [("print.css", File "p { }")])].

(** The host whose static directory is [nested_assets]. *)
Definition nested_host : Platform := host "1000" (Some nested_assets).

(** [static/a.txt] and [static/sub/a.txt]. *)
Definition shadowed_assets : fsnode :=
  Dir [("a.txt", File "top"); ("sub", Dir [("a.txt", File "nested")])].

(** A chain of three attempts: [false], then [ip addr] (unknown to the
    host's shell), then [echo fallback-ok] with one summary. *)
Definition echo_attempt : CommandConfig :=
  mkCommandConfig "net" (YStr "echo fallback-ok")
    [mkSummaryConfig (YStr "raw") (YStr "cat")] (YStr "echo.txt") None.

Definition three_attempts : CommandConfig :=
  mkCommandConfig "net" (YStr "false")
    [mkSummaryConfig (YStr "a") (YStr "cat"); mkSummaryConfig (YStr "b") (YStr "cat")]
    (YStr "net.txt")
    (Some (mkCommandConfig "net" (YStr "ip addr") [] (YStr "ip.txt")
             (Some echo_attempt))).

(** A command with three summaries, the second of which fails. *)
Definition with_summaries : CommandConfig :=
  mkCommandConfig "disk" (YStr "df -h")
    [mkSummaryConfig (YStr "raw") (YStr "cat");
     mkSummaryConfig (YStr "usage") (YStr "awk");
     mkSummaryConfig (YStr "first") (YStr "head -c 5")]
    (YStr "disk.txt") None.

(** A command that fails and whose fallback names another output file. *)
Definition net_with_fallback : CommandConfig :=
  mkCommandConfig "net" (YStr "false") [] (YStr "net.txt")
    (Some (mkCommandConfig "net" (YStr "echo fallback-ok") [] (YStr "fallback.txt")
             None)).

(** A command object whose fallback asks for root. *)
Definition kernel_object : yaml :=
  YMap [("run", YStr "dmesg"); ("output", YStr "kernel.txt");
        ("on-fail", YMap [("run", YStr "journalctl -k");
                          ("output", YStr "kernel.txt");
                          ("superuser", YStr "required")])].

Definition privileged_entries : list (string * yaml) :=
  [("disk", YMap [("run", YStr "df -h"); ("output", YStr "disk.txt")]);
   ("kernel", kernel_object)].

(** A command object with [run] and no [output]. *)
Definition no_output : list (string * yaml) := [("run", YStr "df -h")].

(** A valid command object with [superuser: preferred]. *)
Definition preferred : list (string * yaml) :=
  [("run", YStr "uname"); ("superuser", YStr "preferred"); ("output", YStr "uname.txt")].

(** Three commands: the second fails with no fallback, the third has an
    empty output name. *)
Definition three_commands : yaml :=
  YMap [("disk", YMap [("run", YStr "df -h"); ("output", YStr "disk.txt")]);
        ("net", YMap [("run", YStr "false"); ("output", YStr "net.txt")]);
        ("os", YMap [("run", YStr "uname"); ("output", YStr "")])].

(** A chain of two attempts, both unknown to the host's shell. *)
Definition no_attempt_works : CommandConfig :=
  mkCommandConfig "net" (YStr "false") [] (YStr "net.txt")
    (Some (mkCommandConfig "net" (YStr "ip addr") [] (YStr "net.txt") None)).

(** A command whose output name is empty. *)
Definition unnamed_output : CommandConfig :=
  mkCommandConfig "os" (YStr "uname") [] (YStr "") None.

(** A host run by root, and a host whose [id -u] prints no number. *)
Definition root : Platform := host "0" (Some (Dir [("logo.svg", File "<svg/>")])).

Definition odd : Platform := host "nobody" None.

(** Command objects: one asking for root, one with a wrong [superuser], one
    with a summary and a fallback. *)
Definition needs_root : list (string * yaml) :=
  [("run", YStr "dmesg"); ("output", YStr "kernel.txt"); ("superuser", YStr "required")].

Definition wrong_superuser : list (string * yaml) :=
  [("run", YStr "uname"); ("output", YStr "uname.txt"); ("superuser", YStr "yes")].

Definition raw_summary : yaml := YMap [("title", YStr "raw"); ("run", YStr "cat")].

Definition disk_fallback : yaml :=
  YMap [("run", YStr "du -sh /"); ("output", YStr "du.txt")].

Definition disk_object : yaml :=
  YMap [("run", YStr "df -h"); ("output", YStr "disk.txt");
        ("summary", YList [raw_summary]); ("on-fail", disk_fallback)].

(** A summary object without [run]. *)
Definition untitled_summary : list (string * yaml) := [("title", YStr "usage")].

Definition disk_with_bad_summary : list (string * yaml) :=
  [("run", YStr "df -h"); ("output", YStr "disk.txt");
   ("summary", YList [raw_summary; YMap untitled_summary])].

(** The entries of a document without any [superuser] key. *)
Definition plain_entries : list (string * yaml) :=
  [("disk", disk_object);
   ("os", YMap [("run", YStr "uname"); ("output", YStr "uname.txt")])].

(** A static directory of regular files. *)
Definition flat_assets : list (string * fsnode) :=
  [("logo.svg", File "<svg/>"); ("script.js", File "init();")].

(** A static directory with a file that is not text: the first byte of
    [logo.png] is 137. *)
Definition binary_assets : list (string * fsnode) :=
  [("script.js", File "init();");
   ("logo.png", File (String "137"%char "PNG"))].

(** The host whose static directory is [shadowed_assets]. *)
Definition shadowed_host : Platform := host "1000" (Some shadowed_assets).

End Demo.

(** ** Further notions, for the rest of the script *)

(** What lines 32-34 ask of a command object: [run] and [output] are keys,
    and [superuser], when it is a key, is ["required"] or ["preferred"]. *)
Definition valid_fields (entries : list (string * yaml)) : bool :=
  has_key "run" entries && has_key "output" entries
  && match lookup "superuser" entries with
     | Some v => eq_str v "required" || eq_str v "preferred"
     | None => true
     end.

(** [all_fail P c w w']: started in world [w], the script of every spec of
    the chain of [c] fails, and the last failure leaves the world [w']. *)
Inductive all_fail (P : Platform) : CommandConfig -> World P -> World P -> Prop :=
| fail_last (c : CommandConfig) (w w' : World P) :
    check_output P (sh_c P (script c)) [] None w = (w', None) ->
    on_fail c = None ->
    all_fail P c w w'
| fail_next (c fallback : CommandConfig) (w w1 w' : World P) :
    check_output P (sh_c P (script c)) [] None w = (w1, None) ->
    on_fail c = Some fallback ->
    all_fail P fallback w1 w' ->
    all_fail P c w w'.

(** The spawn event of the script of a spec, and of a summary spec. *)
Definition spawn_of (P : Platform) (c : CommandConfig) : event :=
  Spawned (sh_c P (script c)).

Definition summary_spawn_of (P : Platform) (sc : SummaryConfig) : event :=
  Spawned (sh_c P (summary_script sc)).

(** A computation all of whose events satisfy [Q]. *)
Definition emits {P : Platform} {A : Type} (Q : event -> Prop) (m : M P A) : Prop :=
  forall st, exists evs,
    trace P (fst (m st)) = trace P st ++ evs /\ Forall Q evs.

Definition is_printed (e : event) : Prop :=
  match e with Printed _ => True | _ => False end.

Definition not_archive (e : event) : Prop :=
  match e with ArchiveOpened | ArchiveEntry _ _ => False | _ => True end.

(** A command object, or a fallback below it, has the key [superuser]. *)
Fixpoint mentions_superuser (config : yaml) : bool :=
  match config with
  | YMap entries =>
      has_key "superuser" entries
      || (fix find (l : list (string * yaml)) : bool :=
            match l with
            | [] => false
            | (k, v) :: rest =>
                if String.eqb k "on-fail" then mentions_superuser v else find rest
            end) entries
  | _ => false
  end.

(** Every file name listed in a directory of the tree, at any depth. *)
Fixpoint files_below (tree : fsnode) : list string :=
  match tree with
  | File _ => []
  | Dir children =>
      file_names children
      ++ (fix each (l : list (string * fsnode)) : list string :=
            match l with
            | [] => []
            | (_, node) :: rest => files_below node ++ each rest
            end) children
  end.

(** A summary object and the summary spec built from it. *)
Definition summary_of (item : yaml) (sc : SummaryConfig) : Prop :=
  exists entries,
    item = YMap entries
    /\ lookup "title" entries = Some (summary_title sc)
    /\ lookup "run" entries = Some (summary_script sc).

(** The command object and the fallback objects nested below it under
    [on-fail], outermost first. *)
Fixpoint on_fail_objects (config : yaml) : list yaml :=
  config
  :: match config with
     | YMap entries =>
         (fix find (l : list (string * yaml)) : list yaml :=
            match l with
            | [] => []
            | (k, v) :: rest =>
                if String.eqb k "on-fail" then on_fail_objects v else find rest
            end) entries
     | _ => []
     end.

(** A command object and the spec built from it under the name [key]. *)
Definition spec_of (key : string) (object : yaml) (c : CommandConfig) : Prop :=
  exists entries,
    object = YMap entries
    /\ valid_fields entries = true
    /\ name c = key
    /\ lookup "run" entries = Some (script c)
    /\ lookup "output" entries = Some (output_file c)
    /\ (lookup "summary" entries = None -> summary_configs c = [])
    /\ (forall items,
          lookup "summary" entries = Some (YList items) ->
          Forall2 summary_of items (summary_configs c)).

(** ** Facts about the monad *)

Section Facts.

Context (P : Platform).

Lemma bind_ok {A B : Type} (m : M P A) (k : A -> M P B) (st st' : state P) (a : A) :
  m st = (st', Ok a) -> bind m k st = k a st'.
Proof. intros H. unfold bind. rewrite H. reflexivity. Qed.

Lemma bind_not_ok {A B : Type} (m : M P A) (k : A -> M P B) (st : state P) :
  is_ok (snd (m st)) = false ->
  fst (bind m k st) = fst (m st) /\ is_ok (snd (bind m k st)) = false.
Proof.
  unfold bind. destruct (m st) as [st' [a | status | ]]; simpl; intros H;
    try discriminate; split; reflexivity.
Qed.

Lemma bind_ext {A B : Type} (m : M P A) (k1 k2 : A -> M P B) (st : state P) :
  (forall a st', m st = (st', Ok a) -> k1 a st' = k2 a st') ->
  bind m k1 st = bind m k2 st.
Proof.
  intros H. unfold bind. destruct (m st) as [st' [a | status | ]]; auto.
Qed.

Lemma bind_inv_ok {A B : Type} (m : M P A) (k : A -> M P B) (st st' : state P) (b : B) :
  bind m k st = (st', Ok b) ->
  exists a st1, m st = (st1, Ok a) /\ k a st1 = (st', Ok b).
Proof.
  unfold bind. destruct (m st) as [st1 [a | status | ]]; intros H;
    try discriminate. exists a, st1. split; [reflexivity | exact H].
Qed.

(** Induction along the fallback chain. *)
Lemma chain_ind (Q : CommandConfig -> Prop) :
  (forall name script summary_configs output_file,
      Q (mkCommandConfig name script summary_configs output_file None)) ->
  (forall name script summary_configs output_file fallback,
      Q fallback ->
      Q (mkCommandConfig name script summary_configs output_file (Some fallback))) ->
  forall c, Q c.
Proof.
  intros Hlast Hnext. fix IH 1. intros [n s l o [f | ]].
  - apply Hnext. apply IH.
  - apply Hlast.
Qed.

(** ** Facts about [run_command] *)

(** One round of the summary loop never fails: it yields the captured text,
    or the sentinel when the script fails. *)
Lemma summarize_eq (out : string) (sc : SummaryConfig) (st : state P) :
  summarize P out sc st =
  let (w, r) := check_output P (sh_c P (summary_script sc)) (scripts_env P)
                  (Some out) (world P st) in
  (mkState P w (trace P st ++ [Spawned (sh_c P (summary_script sc))]),
   Ok (mkSubReportSummary (summary_title sc)
         (match r with Some text => text | None => empty_summary end))).
Proof.
  unfold summarize, try_except, bind, subprocess_check_output.
  destruct (check_output P _ _ _ _) as [w [text | ]]; reflexivity.
Qed.

Lemma summaries_total (out : string) (l : list SummaryConfig) (st : state P) :
  exists st' sums,
    mapM (summarize P out) l st = (st', Ok sums)
    /\ map title sums = map summary_title l.
Proof.
  revert st. induction l as [ | sc l IH]; intros st; simpl.
  - exists st, []. split; reflexivity.
  - unfold bind at 1. rewrite summarize_eq.
    destruct (check_output P _ _ _ _) as [w r].
    match goal with
    | |- context [bind _ _ ?s] => destruct (IH s) as (st' & sums & E & T)
    end.
    unfold bind at 1. rewrite E. eexists; eexists. split; [reflexivity | ].
    simpl. rewrite T. reflexivity.
Qed.

Lemma run_command_eq (c : CommandConfig) (st : state P) :
  run_command P c st =
  try_except
    (bind (get_cmd_output P (sh_c P (script c)))
       (fun out =>
          bind (mapM (summarize P out) (summary_configs c))
            (fun sums =>
               ret (Some (mkSubReportResult (name c) out (output_file c) sums)))))
    (match on_fail c with
     | Some fallback => run_command P fallback
     | None => ret None
     end) st.
Proof. destruct c; reflexivity. Qed.

(** An attempt whose script succeeds yields its own result. *)
Lemma run_command_success (c : CommandConfig) (st : state P) (w : World P) (out : string) :
  check_output P (sh_c P (script c)) [] None (world P st) = (w, Some out) ->
  exists st' sums,
    mapM (summarize P out) (summary_configs c)
      (mkState P w (trace P st ++ [Spawned (sh_c P (script c))])) = (st', Ok sums)
    /\ run_command P c st
       = (st', Ok (Some (mkSubReportResult (name c) out (output_file c) sums))).
Proof.
  intros H. rewrite run_command_eq.
  destruct (summaries_total out (summary_configs c)
              (mkState P w (trace P st ++ [Spawned (sh_c P (script c))])))
    as (st' & sums & E & _).
  exists st', sums. split; [exact E | ].
  unfold try_except, bind, get_cmd_output, subprocess_check_output.
  rewrite H. rewrite E. reflexivity.
Qed.

(** An attempt whose script fails hands over to the fallback. *)
Lemma run_command_failure (c : CommandConfig) (st : state P) (w : World P) :
  check_output P (sh_c P (script c)) [] None (world P st) = (w, None) ->
  run_command P c st =
  match on_fail c with
  | Some fallback => run_command P fallback
  | None => ret None
  end (mkState P w (trace P st ++ [Spawned (sh_c P (script c))])).
Proof.
  intros H. rewrite run_command_eq.
  unfold try_except, bind, get_cmd_output, subprocess_check_output.
  rewrite H. reflexivity.
Qed.

Lemma run_command_first_success (c ck : CommandConfig) (w wk : World P) (out : string) :
  first_success P c w ck out wk ->
  forall st, world P st = w ->
    exists st' sums trk,
      mapM (summarize P out) (summary_configs ck) (mkState P wk trk) = (st', Ok sums)
      /\ run_command P c st
         = (st', Ok (Some (mkSubReportResult (name ck) out (output_file ck) sums))).
Proof.
  induction 1 as [c w wk out H | c f ck w w1 wk out H Hf _ IH]; intros st Hw; subst w.
  - destruct (run_command_success c st wk out H) as (st' & sums & E & R).
    exists st', sums. eexists. split; [exact E | exact R].
  - rewrite (run_command_failure c st w1 H). rewrite Hf.
    apply IH. reflexivity.
Qed.

(** Whatever [run_command] returns, it returns: either nothing, after every
    attempt of the chain failed, or the result of the first attempt whose
    script succeeded. *)
Lemma run_command_inv (c : CommandConfig) :
  forall st,
    (exists st', run_command P c st = (st', Ok None))
    \/ (exists ck out wk st' sums trk,
          first_success P c (world P st) ck out wk
          /\ In ck (chain c)
          /\ mapM (summarize P out) (summary_configs ck) (mkState P wk trk) = (st', Ok sums)
          /\ run_command P c st
             = (st', Ok (Some (mkSubReportResult (name ck) out (output_file ck) sums)))).
Proof.
  induction c as [n s l o | n s l o f IH] using chain_ind; intros st.
  - set (c := mkCommandConfig n s l o None).
    destruct (check_output P (sh_c P (script c)) [] None (world P st)) as [w [out | ]] eqn:H.
    + right. destruct (run_command_success c st w out H) as (st' & sums & E & R).
      exists c, out, w, st', sums. eexists.
      repeat split; [constructor; exact H | left; reflexivity | exact E | exact R].
    + left. rewrite (run_command_failure c st w H). simpl. eexists. reflexivity.
  - set (c := mkCommandConfig n s l o (Some f)).
    destruct (check_output P (sh_c P (script c)) [] None (world P st)) as [w [out | ]] eqn:H.
    + right. destruct (run_command_success c st w out H) as (st' & sums & E & R).
      exists c, out, w, st', sums. eexists.
      repeat split; [constructor; exact H | left; reflexivity | exact E | exact R].
    + rewrite (run_command_failure c st w H). simpl.
      destruct (IH (mkState P w (trace P st ++ [Spawned (sh_c P (script c))])))
        as [(st' & R) | (ck & out & wk & st' & sums & trk & F & I & E & R)].
      * left. exists st'. exact R.
      * right. exists ck, out, wk, st', sums, trk.
        repeat split; [ | right; exact I | exact E | exact R].
        eapply success_later; [exact H | reflexivity | exact F].
Qed.

Lemma mapM_app {A B : Type} (f : A -> M P B) (l1 l2 : list A) (st : state P) :
  mapM f (l1 ++ l2) st =
  bind (mapM f l1) (fun a => bind (mapM f l2) (fun b => ret (a ++ b))) st.
Proof.
  revert st. induction l1 as [ | x l1 IH]; intros st; simpl.
  - unfold bind at 1. unfold ret at 1. unfold bind.
    destruct (mapM f l2 st) as [st' [b | status | ]]; reflexivity.
  - unfold bind, ret in *.
    destruct (f x st) as [st1 [b | status | ]]; try reflexivity.
    rewrite IH.
    destruct (mapM f l1 st1) as [st2 [bs | status | ]]; try reflexivity.
    destruct (mapM f l2 st2) as [st3 [cs | status | ]]; reflexivity.
Qed.

(** C1: when the attempts of a fallback chain fail one after the other and
    the attempt of [ck] is the first to succeed, [run_command] returns a
    result whose raw output is exactly the output captured from that
    attempt; its name, output file and summaries are those of [ck], the
    summaries being computed from that output alone.  Nothing of the failed
    attempts is in the result. *)
Theorem run_command_reflects_succeeding_attempt
    (c ck : CommandConfig) (st : state P) (out : string) (wk : World P) :
  first_success P c (world P st) ck out wk ->
  exists st' r,
    run_command P c st = (st', Ok (Some r))
    /\ raw_output r = out
    /\ result_name r = name ck
    /\ result_output_file r = output_file ck
    /\ exists trk,
         mapM (summarize P out) (summary_configs ck) (mkState P wk trk)
         = (st', Ok (summaries r)).
Proof.
  intros F.
  destruct (run_command_first_success c ck _ wk out F st eq_refl)
    as (st' & sums & trk & E & R).
  exists st'. eexists. split; [exact R | ]. simpl.
  repeat split. exists trk. exact E.
Qed.

(** C2, as the code has it: a result of [run_command] has as many
    summaries as the spec of the attempt that produced it has summary specs,
    whichever summary scripts failed.  That spec is the spec of the command
    when the script of the command succeeded, and otherwise the first spec
    down the fallback chain whose script succeeded. *)
Theorem summaries_length_matches_specs
    (c : CommandConfig) (st st' : state P) (r : SubReportResult) :
  run_command P c st = (st', Ok (Some r)) ->
  exists ck wk,
    first_success P c (world P st) ck (raw_output r) wk
    /\ In ck (chain c)
    /\ length (summaries r) = length (summary_configs ck)
    /\ (forall w out,
          check_output P (sh_c P (script c)) [] None (world P st) = (w, Some out) ->
          ck = c).
Proof.
  intros R.
  destruct (run_command_inv c st)
    as [(st1 & R1) | (ck & out & wk & st1 & sums & trk & F & I & E & R1)];
    rewrite R1 in R; [discriminate | ].
  injection R as <- <-. exists ck, wk. simpl.
  repeat split; [exact F | exact I | | ].
  - destruct (summaries_total out (summary_configs ck) (mkState P wk trk))
      as (st2 & sums2 & E2 & T).
    rewrite E in E2. injection E2 as <- <-.
    rewrite <- (length_map title), T. apply length_map.
  - intros w out' H. inversion F as [? ? ? ? H' | ? ? ? ? ? ? ? H' ? ?]; subst.
    + reflexivity.
    + rewrite H in H'. discriminate.
Qed.

(** C6: in an attempt whose script succeeded with output [out], a summary
    script that fails on [out] yields the summary whose content is the
    sentinel text, at its place in the list; [run_command] still returns
    the result of the command. *)
Theorem failed_summary_yields_sentinel
    (c : CommandConfig) (st st2 : state P) (w1 w3 : World P) (out : string)
    (pre post : list SummaryConfig) (sc : SummaryConfig)
    (sums_pre : list SubReportSummary) :
  check_output P (sh_c P (script c)) [] None (world P st) = (w1, Some out) ->
  summary_configs c = pre ++ sc :: post ->
  mapM (summarize P out) pre
    (mkState P w1 (trace P st ++ [Spawned (sh_c P (script c))])) = (st2, Ok sums_pre) ->
  check_output P (sh_c P (summary_script sc)) (scripts_env P) (Some out) (world P st2)
  = (w3, None) ->
  exists st' sums_post,
    length sums_post = length post
    /\ run_command P c st
       = (st', Ok (Some (mkSubReportResult (name c) out (output_file c)
                           (sums_pre
                              ++ mkSubReportSummary (summary_title sc) empty_summary
                              :: sums_post)))).
Proof.
  intros Hrun Hsplit Hpre Hfail.
  destruct (run_command_success c st w1 out Hrun) as (st' & sums & E & R).
  rewrite Hsplit, mapM_app in E. unfold bind at 1 in E. rewrite Hpre in E.
  simpl in E. unfold bind, ret in E. rewrite summarize_eq, Hfail in E.
  match type of E with
  | context [mapM (summarize P out) post ?s] =>
      destruct (summaries_total out post s) as (st3 & sums_post & E3 & T)
  end.
  rewrite E3 in E. injection E as <- <-.
  exists st3, sums_post. split; [ | exact R].
  rewrite <- (length_map title), T. apply length_map.
Qed.

(** C10: when the script of a command fails and an attempt further down
    its fallback chain succeeds, the returned result carries the output file
    of the spec that succeeded, while the round of the report loop registers
    the raw output under the output file of the command itself, and only
    when that one is set: the output file of the fallback names no entry. *)
Theorem fallback_entry_uses_top_level_output_file
    (c fallback ck : CommandConfig) (st : state P) (w1 wk : World P) (out : string)
    (sub_reports : list SubReportResult) (files : list file_entry) :
  check_output P (sh_c P (script c)) [] None (world P st) = (w1, None) ->
  on_fail c = Some fallback ->
  first_success P fallback w1 ck out wk ->
  exists st' r,
    run_command P c st = (st', Ok (Some r))
    /\ result_output_file r = output_file ck
    /\ raw_output r = out
    /\ report_round P (sub_reports, files) c st
       = (st', Ok (sub_reports ++ [r],
                   if truthy (output_file c)
                   then files ++ [(output_file c, out)]
                   else files)).
Proof.
  intros Hfail Hf F.
  destruct (run_command_first_success c ck (world P st) wk out
              (success_later P c fallback ck _ w1 wk out Hfail Hf F) st eq_refl)
    as (st' & sums & trk & E & R).
  exists st'. eexists. split; [exact R | ]. simpl. repeat split.
  unfold report_round. rewrite (bind_ok _ _ _ _ _ R). reflexivity.
Qed.

End Facts.

(** ** Facts about configuration loading *)

Section Loader.

Context (P : Platform).

Lemma on_fail_depth_lookup (entries : list (string * yaml)) (v : yaml) :
  lookup "on-fail" entries = Some v ->
  on_fail_depth (YMap entries) = S (on_fail_depth v).
Proof.
  simpl. induction entries as [ | [k x] rest IH]; simpl; [discriminate | ].
  destruct (String.eqb k "on-fail"); [ | exact IH].
  intros H. injection H as ->. reflexivity.
Qed.

(** Induction along the [on-fail] nesting of a command object. *)
Lemma on_fail_ind (Q : yaml -> Prop) :
  (forall config,
      (forall entries v,
          config = YMap entries -> lookup "on-fail" entries = Some v -> Q v) ->
      Q config) ->
  forall config, Q config.
Proof.
  intros step config.
  remember (on_fail_depth config) as n eqn:Hn. revert config Hn.
  induction n as [ | n IH]; intros config Hn; apply step; intros entries v -> Hv;
    rewrite (on_fail_depth_lookup entries v Hv) in Hn.
  - discriminate.
  - injection Hn as Hn. apply IH. exact Hn.
Qed.

Lemma find_on_fail (name : string) (entries : list (string * yaml)) :
  (fix find (l : list (string * yaml)) : M P CommandConfig :=
     match l with
     | [] => raise
     | (k, v) :: rest =>
         if String.eqb k "on-fail" then CommandConfig_init P name v else find rest
     end) entries
  = match lookup "on-fail" entries with
    | Some v => CommandConfig_init P name v
    | None => raise
    end.
Proof.
  induction entries as [ | [k x] rest IH]; simpl; [reflexivity | ].
  destruct (String.eqb k "on-fail"); [reflexivity | exact IH].
Qed.

Lemma load_rest_ext (name : string) (entries : list (string * yaml)) (script : yaml)
    (F G : yaml -> M P CommandConfig) (st : state P) :
  (forall v, lookup "on-fail" entries = Some v -> F v = G v) ->
  load_rest P name (YMap entries) script F st
  = load_rest P name (YMap entries) script G st.
Proof.
  intros H. unfold load_rest.
  do 4 (apply bind_ext; intros).
  unfold py_in, py_getitem, has_key.
  destruct (lookup "on-fail" entries) as [v | ]; [ | reflexivity].
  cbv [bind ret]. rewrite (H v eq_refl). reflexivity.
Qed.

(** The equation of [CommandConfig.__init__]: the recursive call is on
    [config["on-fail"]]. *)
Lemma CommandConfig_init_eq (name : string) (config : yaml) (st : state P) :
  CommandConfig_init P name config st
  = CommandConfig_body P name config (CommandConfig_init P name) st.
Proof.
  transitivity
    (CommandConfig_body P name config
       (fun _ =>
          match config with
          | YMap entries =>
              match lookup "on-fail" entries with
              | Some v => CommandConfig_init P name v
              | None => raise
              end
          | _ => raise
          end) st).
  - destruct config; try reflexivity.
    rewrite <- find_on_fail. reflexivity.
  - unfold CommandConfig_body. apply bind_ext. intros _ st1 _.
    destruct config; try reflexivity.
    apply bind_ext. intros script st2 _. apply bind_ext. intros _ st3 _.
    apply load_rest_ext. intros v Hv. rewrite Hv. reflexivity.
Qed.

(** *** Computations that never return normally *)

Lemma never_ok_bind_l {A B : Type} (m : M P A) (k : A -> M P B) :
  never_ok m -> never_ok (bind m k).
Proof. intros H st. apply bind_not_ok. apply H. Qed.

Lemma never_ok_bind_r {A B : Type} (m : M P A) (k : A -> M P B) :
  (forall a, (exists st st', m st = (st', Ok a)) -> never_ok (k a)) ->
  never_ok (bind m k).
Proof.
  intros H st. unfold bind. destruct (m st) as [st' [a | status | ]] eqn:E;
    try reflexivity.
  apply H. exists st, st'. exact E.
Qed.

Lemma never_ok_mapM {A B : Type} (f : A -> M P B) (l : list A) (x : A) :
  In x l -> never_ok (f x) -> never_ok (mapM f l).
Proof.
  intros Hin H. induction l as [ | y l IH]; [destruct Hin | ].
  simpl. destruct Hin as [E | I].
  - subst y. apply never_ok_bind_l. exact H.
  - apply never_ok_bind_r. intros ? _. apply never_ok_bind_l. apply IH. exact I.
Qed.

(** *** Computations that only load *)

Lemma only_loads_silent {A : Type} (m : M P A) :
  (forall st, fst (m st) = st) -> only_loads m.
Proof.
  intros H st. exists []. rewrite H, app_nil_r. split; [reflexivity | constructor].
Qed.

Lemma only_loads_bind {A B : Type} (m : M P A) (k : A -> M P B) :
  only_loads m ->
  (forall a, (exists st st', m st = (st', Ok a)) -> only_loads (k a)) ->
  only_loads (bind m k).
Proof.
  intros Hm Hk st. unfold bind.
  destruct (Hm st) as (e1 & T1 & F1).
  destruct (m st) as [st1 [a | status | ]] eqn:E; simpl in T1;
    try (exists e1; split; assumption).
  destruct (Hk a (ex_intro _ st (ex_intro _ st1 E)) st1) as (e2 & T2 & F2).
  exists (e1 ++ e2). rewrite T2, T1, app_assoc. split; [reflexivity | ].
  apply Forall_app. split; assumption.
Qed.

Lemma only_loads_print (line : string) : only_loads (print (P := P) line).
Proof.
  intros st. exists [Printed line]. split; [reflexivity | ].
  constructor; [exact I | constructor].
Qed.

Lemma only_loads_py_in (key : string) (v : yaml) : only_loads (py_in P key v).
Proof. apply only_loads_silent. intros st. destruct v; reflexivity. Qed.

Lemma only_loads_py_getitem (v : yaml) (key : string) : only_loads (py_getitem P v key).
Proof.
  apply only_loads_silent. intros st. destruct v; try reflexivity.
  simpl. destruct (lookup key entries); reflexivity.
Qed.

Lemma only_loads_py_get (v : yaml) (key : string) (d : yaml) :
  only_loads (py_get P v key d).
Proof.
  apply only_loads_silent. intros st. destruct v; try reflexivity.
  simpl. destruct (lookup key entries); reflexivity.
Qed.

Lemma only_loads_py_iter (v : yaml) : only_loads (py_iter P v).
Proof. apply only_loads_silent. intros st. destruct v; reflexivity. Qed.

Lemma only_loads_is_root : only_loads (is_root P).
Proof.
  intros st. exists [Spawned "id -u"].
  split; [ | constructor; [reflexivity | constructor]].
  unfold is_root, bind, get_cmd_output, subprocess_check_output.
  destruct (check_output P "id -u" [] None (world P st)) as [w [out | ]];
    [ | reflexivity].
  destruct (py_int P out); reflexivity.
Qed.

Lemma only_loads_mapM {A B : Type} (f : A -> M P B) (l : list A) :
  (forall x, In x l -> only_loads (f x)) -> only_loads (mapM f l).
Proof.
  induction l as [ | x l IH]; intros H; simpl.
  - apply only_loads_silent. reflexivity.
  - apply only_loads_bind; [apply H; left; reflexivity | intros b _].
    apply only_loads_bind; [apply IH; intros y I; apply H; right; exact I | intros bs _].
    apply only_loads_silent. reflexivity.
Qed.

Ltac loads_step :=
  first
    [ apply only_loads_print
    | apply only_loads_py_in
    | apply only_loads_py_getitem
    | apply only_loads_py_get
    | apply only_loads_py_iter
    | apply only_loads_is_root
    | apply only_loads_silent; reflexivity
    | apply only_loads_bind; [ | intros ? ? ]
    | match goal with
      | |- only_loads (if ?b then _ else _) => destruct b
      end ].

Lemma only_loads_SummaryConfig_init (config : yaml) :
  only_loads (SummaryConfig_init P config).
Proof. unfold SummaryConfig_init. repeat loads_step. Qed.

Lemma only_loads_check_fields (name : string) (config : yaml) :
  only_loads (check_fields P name config).
Proof. unfold check_fields. repeat loads_step. Qed.

Lemma only_loads_privilege_gate (config script : yaml) :
  only_loads (privilege_gate P config script).
Proof. unfold privilege_gate. repeat loads_step. Qed.

Lemma py_getitem_ok (config : yaml) (key : string) (v : yaml) :
  (exists st st', py_getitem P config key st = (st', Ok v)) ->
  exists entries, config = YMap entries /\ lookup key entries = Some v.
Proof.
  intros (st & st' & H). destruct config; try discriminate.
  exists entries. split; [reflexivity | ].
  simpl in H. destruct (lookup key entries); [ | discriminate].
  injection H as _ ->. reflexivity.
Qed.

Lemma only_loads_load_rest (name : string) (config script : yaml)
    (F : yaml -> M P CommandConfig) :
  (forall entries v,
      config = YMap entries -> lookup "on-fail" entries = Some v -> only_loads (F v)) ->
  only_loads (load_rest P name config script F).
Proof.
  intros H. unfold load_rest.
  apply only_loads_bind; [loads_step | intros summary _].
  apply only_loads_bind; [loads_step | intros items _].
  apply only_loads_bind;
    [apply only_loads_mapM; intros; apply only_loads_SummaryConfig_init
    | intros scs _].
  apply only_loads_bind; [loads_step | intros o _].
  apply only_loads_bind; [loads_step | intros has _].
  apply only_loads_bind; [ | intros; loads_step].
  destruct has; [ | loads_step].
  apply only_loads_bind; [loads_step | intros v Hv].
  destruct (py_getitem_ok _ _ _ Hv) as (entries & -> & L).
  apply only_loads_bind; [ | intros; loads_step].
  apply (H entries v eq_refl L).
Qed.

(** Loading a command object prints diagnostics and probes the uid; it
    runs no command of the configuration. *)
Lemma only_loads_CommandConfig_init (name : string) (config : yaml) :
  only_loads (CommandConfig_init P name config).
Proof.
  induction config as [config IH] using on_fail_ind.
  intros st. rewrite CommandConfig_init_eq. revert st.
  change (only_loads (CommandConfig_body P name config (CommandConfig_init P name))).
  unfold CommandConfig_body.
  apply only_loads_bind; [apply only_loads_check_fields | intros ? _].
  apply only_loads_bind; [loads_step | intros script _].
  apply only_loads_bind; [apply only_loads_privilege_gate | intros ? _].
  apply only_loads_load_rest. exact IH.
Qed.

Lemma only_loads_read_commands (document : yaml) :
  only_loads (read_commands P document).
Proof.
  destruct document; try (apply only_loads_silent; reflexivity).
  apply only_loads_mapM. intros x _. apply only_loads_CommandConfig_init.
Qed.

(** When loading some command object of the document never returns, the
    run ends in configuration loading. *)
Lemma main_ends_in_loader (entries : list (string * yaml)) (name : string)
    (config : yaml) (st : state P) :
  In (name, config) entries ->
  never_ok (CommandConfig_init P name config) ->
  exists evs,
    is_ok (snd (main P (YMap entries) st)) = false
    /\ trace P (fst (main P (YMap entries) st)) = trace P st ++ evs
    /\ Forall loader_event evs.
Proof.
  intros I H.
  assert (N : never_ok (read_commands P (YMap entries))).
  { apply (never_ok_mapM _ _ (name, config) I). exact H. }
  destruct (only_loads_read_commands (YMap entries) st) as (evs & T & F).
  exists evs.
  unfold main, generate_system_report.
  match goal with
  | |- context [bind (bind ?m ?k1) ?k2 st] =>
      destruct (bind_not_ok P m k1 st (N st)) as (S1 & N1);
      destruct (bind_not_ok P (bind m k1) k2 st N1) as (S2 & N2)
  end.
  rewrite S2, S1. repeat split; assumption.
Qed.

(** *** The privilege gate *)

Lemma is_root_unprivileged (st : state P) :
  unprivileged P ->
  exists w, is_root P st = (mkState P w (trace P st ++ [Spawned "id -u"]), Ok false).
Proof.
  intros U. destruct (U (world P st)) as (w & out & uid & Hc & Hi & Hu).
  exists w. unfold is_root, bind, get_cmd_output, subprocess_check_output.
  rewrite Hc, Hi. unfold ret. apply Z.eqb_neq in Hu. rewrite Hu. reflexivity.
Qed.

Lemma find_requires_root (entries : list (string * yaml)) :
  (fix find (l : list (string * yaml)) : bool :=
     match l with
     | [] => false
     | (k, v) :: rest =>
         if String.eqb k "on-fail" then requires_root v else find rest
     end) entries
  = match lookup "on-fail" entries with
    | Some v => requires_root v
    | None => false
    end.
Proof.
  induction entries as [ | [k x] rest IH]; simpl; [reflexivity | ].
  destruct (String.eqb k "on-fail"); [reflexivity | exact IH].
Qed.

Lemma privilege_gate_required (entries : list (string * yaml)) (v script : yaml) :
  unprivileged P ->
  lookup "superuser" entries = Some v ->
  eq_str v "required" = true ->
  never_ok (privilege_gate P (YMap entries) script).
Proof.
  intros U L R st. unfold privilege_gate, py_in, py_getitem, has_key.
  rewrite L. destruct (is_root_unprivileged st U) as (w & E).
  cbv [bind ret]. rewrite E, R. reflexivity.
Qed.

Lemma py_in_map_ok (key : string) (entries : list (string * yaml)) (b : bool) :
  (exists st st', py_in P key (YMap entries) st = (st', Ok b)) ->
  b = has_key key entries.
Proof. intros (st & st' & H). injection H as _ <-. reflexivity. Qed.

Lemma required_never_loads (name : string) (config : yaml) :
  unprivileged P ->
  requires_root config = true ->
  never_ok (CommandConfig_init P name config).
Proof.
  intros U. induction config as [config IH] using on_fail_ind. intros R.
  destruct config as [ | | | | | entries]; try discriminate.
  simpl in R. rewrite find_requires_root in R.
  intros st. rewrite CommandConfig_init_eq. revert st.
  change (never_ok (CommandConfig_body P name (YMap entries) (CommandConfig_init P name))).
  unfold CommandConfig_body.
  apply never_ok_bind_r. intros ? _.
  apply never_ok_bind_r. intros script _.
  apply orb_true_iff in R. destruct R as [R | R].
  - destruct (lookup "superuser" entries) as [v | ] eqn:L; [ | discriminate].
    apply never_ok_bind_l. apply (privilege_gate_required entries v script U L R).
  - destruct (lookup "on-fail" entries) as [fallback | ] eqn:L; [ | discriminate].
    apply never_ok_bind_r. intros ? _. unfold load_rest.
    do 4 (apply never_ok_bind_r; intros ? _).
    apply never_ok_bind_r. intros has Hhas.
    apply py_in_map_ok in Hhas. unfold has_key in Hhas. rewrite L in Hhas. subst has.
    apply never_ok_bind_l. apply never_ok_bind_r. intros v Hv.
    destruct (py_getitem_ok _ _ _ Hv) as (entries' & Heq & L').
    injection Heq as <-. rewrite L in L'. injection L' as <-.
    apply never_ok_bind_l. apply (IH entries fallback eq_refl L R).
Qed.

(** C3: when a command object of the document, or a fallback below one,
    asks for [superuser: required] and the process is not root, the run
    ends without returning: all it did is print diagnostics and probe the
    uid.  No command of the configuration was spawned, the archive was not
    opened and no entry was written. *)
Theorem required_privilege_aborts_run
    (entries : list (string * yaml)) (name : string) (config : yaml) (st : state P) :
  unprivileged P ->
  In (name, config) entries ->
  requires_root config = true ->
  exists evs,
    is_ok (snd (main P (YMap entries) st)) = false
    /\ trace P (fst (main P (YMap entries) st)) = trace P st ++ evs
    /\ Forall loader_event evs.
Proof.
  intros U I R. apply (main_ends_in_loader entries name config st I).
  apply required_never_loads; assumption.
Qed.

(** *** Required fields *)

Lemma missing_output_rejected (name : string) (entries : list (string * yaml))
    (st : state P) :
  lookup "output" entries = None ->
  CommandConfig_init P name (YMap entries) st
  = (mkState P (world P st) (trace P st ++ [Printed (invalid_error name)]),
     SysExit 1%Z).
Proof.
  intros L. rewrite CommandConfig_init_eq.
  unfold CommandConfig_body, check_fields, py_in, py_getitem, has_key.
  rewrite L.
  destruct (lookup "run" entries), (lookup "superuser" entries); reflexivity.
Qed.

(** C5, as the code has it: [output] is a required field.  A command
    object that omits [output] is rejected by configuration loading, which
    prints "Error: <name> config is invalid" and exits with status 1; a
    document that holds such an object ends the run in configuration
    loading, with no command spawned and no archive written. *)
Theorem missing_output_is_fatal
    (name : string) (entries : list (string * yaml)) (st : state P) :
  lookup "output" entries = None ->
  CommandConfig_init P name (YMap entries) st
  = (mkState P (world P st) (trace P st ++ [Printed (invalid_error name)]),
     SysExit 1%Z)
  /\ forall document st0,
       In (name, YMap entries) document ->
       exists evs,
         is_ok (snd (main P (YMap document) st0)) = false
         /\ trace P (fst (main P (YMap document) st0)) = trace P st0 ++ evs
         /\ Forall loader_event evs.
Proof.
  intros L. split; [apply missing_output_rejected; exact L | ].
  intros document st0 I. apply (main_ends_in_loader document name _ st0 I).
  intros st1. rewrite (missing_output_rejected name entries st1 L). reflexivity.
Qed.

(** *** A configuration without its [superuser] key *)

Lemma lookup_without_other (key k : string) (entries : list (string * yaml)) :
  key <> k -> lookup k (without key entries) = lookup k entries.
Proof.
  intros N. induction entries as [ | [k0 v] rest IH]; simpl; [reflexivity | ].
  destruct (String.eqb k0 key) eqn:E; simpl.
  - apply String.eqb_eq in E. subst k0.
    apply String.eqb_neq in N. rewrite N. exact IH.
  - destruct (String.eqb k0 k); [reflexivity | exact IH].
Qed.

Lemma lookup_without_same (key : string) (entries : list (string * yaml)) :
  lookup key (without key entries) = None.
Proof.
  induction entries as [ | [k0 v] rest IH]; simpl; [reflexivity | ].
  destruct (String.eqb k0 key) eqn:E; simpl; [exact IH | ].
  rewrite E. exact IH.
Qed.

Lemma load_rest_without_superuser (name : string) (entries : list (string * yaml))
    (script : yaml) (F : yaml -> M P CommandConfig) (st : state P) :
  load_rest P name (YMap (without "superuser" entries)) script F st
  = load_rest P name (YMap entries) script F st.
Proof.
  unfold load_rest, py_get, py_in, py_getitem, has_key.
  rewrite !lookup_without_other by discriminate. reflexivity.
Qed.

(** C9: for a valid command object with [superuser: preferred], when
    [is_root()] answers no, configuration loading probes the uid, prints the
    warning and from there on is the loading of the same object without its
    [superuser] key; so is the whole run, wherever the object stands in
    the document: the command is spawned, and its result and output enter
    the report, as they do when no privilege is asked for. *)
Theorem preferred_privilege_only_warns
    (name : string) (entries : list (string * yaml)) (script output : yaml)
    (st st1 : state P) :
  lookup "run" entries = Some script ->
  lookup "output" entries = Some output ->
  lookup "superuser" entries = Some (YStr "preferred") ->
  is_root P st = (st1, Ok false) ->
  let warned :=
    mkState P (world P st1)
      (trace P st1 ++ [Printed (insufficient_warning P script)]) in
  trace P st1 = trace P st ++ [Spawned "id -u"]
  /\ CommandConfig_init P name (YMap entries) st
     = CommandConfig_init P name (YMap (without "superuser" entries)) warned
  /\ (forall rest,
        generate_system_report P (YMap ((name, YMap entries) :: rest)) st
        = generate_system_report P
            (YMap ((name, YMap (without "superuser" entries)) :: rest)) warned
        /\ main P (YMap ((name, YMap entries) :: rest)) st
           = main P (YMap ((name, YMap (without "superuser" entries)) :: rest)) warned)
  /\ (forall before rest st0 loaded,
        read_commands P (YMap before) st0 = (st, Ok loaded) ->
        generate_system_report P (YMap (before ++ (name, YMap entries) :: rest)) st0
        = bind
            (read_commands P (YMap ((name, YMap (without "superuser" entries)) :: rest)))
            (fun configs => assemble P (loaded ++ configs)) warned).
Proof.
  intros Lr Lo Ls R warned.
  assert (T : trace P st1 = trace P st ++ [Spawned "id -u"]).
  { destruct (only_loads_is_root st) as (evs & _).
    unfold is_root, bind, get_cmd_output, subprocess_check_output in R.
    destruct (check_output P "id -u" [] None (world P st)) as [w [out | ]];
      [ | discriminate].
    destruct (py_int P out); [ | discriminate].
    injection R as <- _. reflexivity. }
  assert (E : CommandConfig_init P name (YMap entries) st
              = CommandConfig_init P name (YMap (without "superuser" entries)) warned).
  { rewrite !CommandConfig_init_eq.
    unfold CommandConfig_body, check_fields, privilege_gate, py_in, py_getitem, has_key.
    rewrite lookup_without_same.
    rewrite !lookup_without_other by discriminate.
    rewrite Lr, Lo, Ls. cbv [bind ret]. simpl. rewrite R.
    rewrite load_rest_without_superuser. reflexivity. }
  split; [exact T | ]. split; [exact E | ]. split.
  - intros rest.
    assert (G : generate_system_report P (YMap ((name, YMap entries) :: rest)) st
                = generate_system_report P
                    (YMap ((name, YMap (without "superuser" entries)) :: rest)) warned).
    { unfold generate_system_report, read_commands. cbn [mapM fst snd].
      cbv [bind]. cbn [fst snd]. rewrite E. reflexivity. }
    split; [exact G | ].
    unfold main. unfold bind at 1 4. rewrite G. reflexivity.
  - intros before rest st0 loaded B.
    unfold generate_system_report, read_commands in *.
    unfold bind at 1. rewrite mapM_app. unfold bind at 1. rewrite B.
    cbn [mapM fst snd]. cbv [bind ret]. cbn [fst snd]. rewrite E.
    destruct (CommandConfig_init P name (YMap (without "superuser" entries)) warned)
      as [st2 [c | status | ]]; try reflexivity.
    destruct (mapM _ rest st2) as [st3 [cs | status | ]]; reflexivity.
Qed.

End Loader.

(** ** Facts about the static-asset walk *)

Section Static.

Context (P : Platform).

Lemma fsnode_tree_ind (Q : fsnode -> Prop) :
  (forall content, Q (File content)) ->
  (forall children, Forall (fun kn => Q (snd kn)) children -> Q (Dir children)) ->
  forall node, Q node.
Proof.
  intros HF HD. fix IH 1. intros [content | children].
  - apply HF.
  - apply HD. induction children as [ | [k n] rest IHl]; constructor.
    + apply IH.
    + exact IHl.
Qed.

Lemma app_opt_some {A : Type} (a b : option (list A)) (l : list A) :
  app_opt a b = Some l -> exists x y, a = Some x /\ b = Some y /\ l = x ++ y.
Proof.
  destruct a as [x | ], b as [y | ]; simpl; intros H; try discriminate.
  injection H as <-. exists x, y. repeat split.
Qed.

Lemma read_listed_static (dir : list (string * fsnode)) (files : list string)
    (entries : list file_entry) :
  read_listed P dir files = Some entries -> Forall is_static_entry entries.
Proof.
  revert entries. induction files as [ | file rest IH]; intros entries; simpl.
  - intros H. injection H as <-. constructor.
  - destruct (fs_lookup file dir) as [[content | ?] | ]; try discriminate.
    destruct (read_text P content) as [text | ]; [ | discriminate].
    destruct (read_listed P dir rest) as [l | ]; [ | discriminate].
    intros H. injection H as <-. constructor; [ | apply IH; reflexivity].
    exists file. reflexivity.
Qed.

(** Whatever the walk registers is named [static/<filename>]. *)
Lemma walk_rounds_static (root : fsnode) :
  forall dir entries,
    walk_rounds P dir root = Some entries -> Forall is_static_entry entries.
Proof.
  induction root as [content | children IH] using fsnode_tree_ind;
    intros dir entries H.
  - injection H as <-. constructor.
  - cbn [walk_rounds] in H.
    apply app_opt_some in H. destruct H as (here & more & Hh & Hm & ->).
    apply app_opt_some in Hm. destruct Hm as (calls & rounds & Hc & Hr & ->).
    apply Forall_app. split; [apply (read_listed_static _ _ _ Hh) | ].
    apply Forall_app. split.
    + clear Hh Hr. revert calls Hc.
      induction IH as [ | [k node] rest Hnode _ IHrest]; intros calls Hc.
      * injection Hc as <-. constructor.
      * destruct node as [c | sub]; [apply IHrest; exact Hc | ].
        apply app_opt_some in Hc. destruct Hc as (x & y & Hx & Hy & ->).
        apply Forall_app. split; [apply (Hnode _ _ Hx) | apply IHrest; exact Hy].
    + clear Hh Hc. revert rounds Hr.
      induction IH as [ | [k node] rest Hnode _ IHrest]; intros rounds Hr.
      * injection Hr as <-. constructor.
      * destruct node as [c | sub]; [apply IHrest; exact Hr | ].
        apply app_opt_some in Hr. destruct Hr as (x & y & Hx & Hy & ->).
        apply Forall_app. split; [apply (Hnode _ _ Hx) | apply IHrest; exact Hy].
Qed.

Lemma read_files_from_dir_static (tree : fsnode) (entries : list file_entry) :
  read_files_from_dir P tree = Some entries -> Forall is_static_entry entries.
Proof.
  destruct tree as [content | children]; simpl.
  - intros H. injection H as <-. constructor.
  - apply (walk_rounds_static (Dir children)).
Qed.

Lemma fs_lookup_nodup (children : list (string * fsnode)) (k : string) (n : fsnode) :
  NoDup (map fst children) -> In (k, n) children -> fs_lookup k children = Some n.
Proof.
  induction children as [ | [k0 n0] rest IH]; simpl; intros D I; [destruct I | ].
  inversion D as [ | ? ? Hnot Drest]; subst.
  destruct I as [E | I].
  - injection E as -> ->. rewrite String.eqb_refl. reflexivity.
  - destruct (String.eqb k0 k) eqn:E; [ | apply IH; assumption].
    apply String.eqb_eq in E. subst k0. exfalso. apply Hnot.
    apply (in_map fst) in I. exact I.
Qed.

Lemma listed_texts_flat (children : list (string * fsnode))
    (texts : list (string * string)) :
  listed_texts P children texts -> flat children.
Proof.
  induction 1 as [ | kn nt rest texts (_ & content & E & _) _ IH]; constructor.
  - exists content. exact E.
  - exact IH.
Qed.

Lemma read_listed_texts (dir children : list (string * fsnode))
    (texts : list (string * string)) :
  listed_texts P children texts ->
  (forall k n, In (k, n) children -> fs_lookup k dir = Some n) ->
  read_listed P dir (file_names children) = Some (static_named texts).
Proof.
  induction 1 as [ | [k n] [k' text] rest texts (Ek & content & En & Et) _ IH];
    intros L.
  - reflexivity.
  - cbn [fst snd] in Ek, En, Et. subst k' n.
    unfold file_names. cbn [flat_map snd fst app]. cbn [read_listed].
    rewrite (L k (File content) (or_introl eq_refl)), Et.
    unfold file_names in IH. rewrite IH; [reflexivity | ].
    intros k' n' I. apply L. right. exact I.
Qed.

Lemma read_listed_undecodable (dir children : list (string * fsnode))
    (k : string) (content : string) :
  In (k, File content) children ->
  fs_lookup k dir = Some (File content) ->
  read_text P content = None ->
  read_listed P dir (file_names children) = None.
Proof.
  intros I L U. induction children as [ | [k0 n0] rest IH]; [destruct I | ].
  unfold file_names. cbn [flat_map fst snd].
  destruct I as [E | I].
  - injection E as -> ->. cbn [app read_listed]. rewrite L, U. reflexivity.
  - specialize (IH I). unfold file_names in IH.
    destruct n0 as [c0 | sub]; cbn [app]; [ | exact IH].
    cbn [read_listed]. rewrite IH.
    destruct (fs_lookup k0 dir) as [[c | ?] | ]; try reflexivity.
    destruct (read_text P c); reflexivity.
Qed.

Lemma flat_has_no_rounds (children : list (string * fsnode)) :
  flat children ->
  forall dir,
    (fix calls (l : list (string * fsnode)) : option (list file_entry) :=
       match l with
       | [] => Some []
       | (_, node) :: rest =>
           match node with
           | File _ => calls rest
           | Dir sub => app_opt (walk_rounds P sub node) (calls rest)
           end
       end) children = Some []
    /\ (fix rounds (l : list (string * fsnode)) : option (list file_entry) :=
          match l with
          | [] => Some []
          | (_, node) :: rest =>
              match node with
              | File _ => rounds rest
              | Dir _ => app_opt (walk_rounds P dir node) (rounds rest)
              end
          end) children = Some [].
Proof.
  intros F dir. induction F as [ | [k n] rest (content & Hn) _ IH].
  - split; reflexivity.
  - simpl in Hn. subst n. exact IH.
Qed.

Lemma read_files_from_dir_texts (children : list (string * fsnode))
    (texts : list (string * string)) :
  NoDup (map fst children) ->
  listed_texts P children texts ->
  read_files_from_dir P (Dir children) = Some (static_named texts).
Proof.
  intros D T.
  destruct (flat_has_no_rounds children (listed_texts_flat children texts T) children)
    as (C & R).
  cbn [read_files_from_dir walk_rounds].
  rewrite (read_listed_texts children children texts T);
    [ | intros k n I; apply fs_lookup_nodup; assumption].
  rewrite C, R. cbn [app_opt app]. rewrite app_nil_r. reflexivity.
Qed.

(** On a static directory that holds regular files only, under distinct
    names: when every file reads as text, the walk registers every file
    once, as [static/<filename>] with the text read, in listing order; when
    some file does not decode, the walk raises. *)
Theorem read_files_from_dir_flat (children : list (string * fsnode)) :
  NoDup (map fst children) ->
  flat children ->
  (forall texts,
      listed_texts P children texts ->
      read_files_from_dir P (Dir children) = Some (static_named texts))
  /\ (forall k content,
        In (k, File content) children ->
        read_text P content = None ->
        read_files_from_dir P (Dir children) = None).
Proof.
  intros D F. split.
  - intros texts T. apply read_files_from_dir_texts; assumption.
  - intros k content I U. cbn [read_files_from_dir walk_rounds].
    rewrite (read_listed_undecodable children children k content I
               (fs_lookup_nodup children k _ D I) U).
    reflexivity.
Qed.

(** C8 fails on the code: a file in a subdirectory is registered by the
    recursive call, and then opened a second time in the directory the walk
    started from, where it does not exist; [open] raises and the run ends.
    The specification asks for the entry [static/print.css]. *)
Theorem nested_static_file_raises :
  read_files_from_dir Demo.nested_host Demo.nested_assets = None
  /\ static_entries_spec Demo.nested_assets
     = [(YStr "static/print.css", "p { }")]
  /\ (exists st,
        main Demo.nested_host Demo.disk_document
          (Demo.start Demo.nested_host 0%nat)
        = (st, Raised)
        /\ ~ In ArchiveOpened (trace Demo.nested_host st)).
Proof.
  split; [reflexivity | ]. split; [reflexivity | ].
  eexists. split; [vm_compute; reflexivity | ].
  simpl. intros H. repeat (destruct H as [H | H]; [discriminate | ]). exact H.
Qed.

(** When a subdirectory holds a file named like one of the directory the
    walk started from, the walk does not raise, and registers the outer
    file twice. *)
Lemma shadowed_static_file_registered_twice :
  read_files_from_dir Demo.user Demo.shadowed_assets
  = Some [(YStr "static/a.txt", "top"); (YStr "static/a.txt", "nested");
          (YStr "static/a.txt", "top")]
  /\ static_entries_spec Demo.shadowed_assets
     = [(YStr "static/a.txt", "top"); (YStr "static/a.txt", "nested")].
Proof. split; reflexivity. Qed.

End Static.

(** ** Facts about the assembly of the file list *)

Section Assembly.

Context (P : Platform).

Lemma run_command_total (c : CommandConfig) (st : state P) :
  exists st' r, run_command P c st = (st', Ok r).
Proof.
  destruct (run_command_inv P c st)
    as [(st' & R) | (ck & out & wk & st' & sums & trk & _ & _ & _ & R)];
    eexists; eexists; exact R.
Qed.

(** The loop over the commands, against the outcomes of the commands run
    one after the other. *)
Lemma report_loop (cs : list CommandConfig) :
  forall acc st,
    exists st' results,
      mapM (run_one P) cs st = (st', Ok results)
      /\ map fst results = cs
      /\ foldM (report_round P) acc cs st
         = (st', Ok (fst acc ++ sub_reports_of results,
                     snd acc ++ output_entries results)).
Proof.
  induction cs as [ | c cs IH]; intros [subs files] st.
  - exists st, []. simpl. rewrite !app_nil_r. repeat split.
  - destruct (run_command_total c st) as (st1 & r & R).
    set (acc' := match r with
                 | Some x =>
                     (subs ++ [x],
                      if truthy (output_file c)
                      then files ++ [(output_file c, raw_output x)]
                      else files)
                 | None => (subs, files)
                 end).
    destruct (IH acc' st1) as (st' & results & Em & Ef & EF).
    exists st', ((c, r) :: results). split; [ | split].
    + cbn [mapM]. unfold run_one at 1. cbv [bind ret]. rewrite R.
      unfold bind in Em. rewrite Em. reflexivity.
    + simpl. rewrite Ef. reflexivity.
    + cbn [foldM]. unfold report_round at 1. unfold bind at 1 2. rewrite R.
      assert (E : match r with
                  | Some x =>
                      ret (fst (subs, files) ++ [x],
                           if truthy (output_file c)
                           then snd (subs, files) ++ [(output_file c, raw_output x)]
                           else snd (subs, files))
                  | None => ret (subs, files)
                  end st1 = (st1, Ok acc')) by (destruct r; reflexivity).
      rewrite E, EF. unfold acc'. cbn [fst snd sub_reports_of output_entries flat_map].
      destruct r as [x | ]; cbn [fst snd]; [ | reflexivity].
      destruct (truthy (output_file c)); cbn [app];
        rewrite <- ?app_assoc; reflexivity.
Qed.

(** A file list [generate_system_report] returns is, in this order: the
    [(output_file, raw_output)] pairs of the commands that produced a
    result and have an output file, in the order the commands ran; the
    entry [system_report_summary.html] with the rendered index; the entry
    [style.css]; the entries of the static-asset walk, each named
    [static/<filename>].  Without a static directory the walk adds nothing;
    on a static directory of regular files under distinct names it adds
    every file once, with the text read from it, in listing order. *)
Theorem file_list_order
    (document : yaml) (st st' : state P) (files : list file_entry) :
  generate_system_report P document st = (st', Ok files) ->
  exists configs st1 results html css static,
    read_commands P document st = (st1, Ok configs)
    /\ mapM (run_one P) configs st1 = (st', Ok results)
    /\ map fst results = configs
    /\ render_report P (sub_reports_of results) (world P st') = Some html
    /\ style_css P (world P st') = Some css
    /\ read_static P st' = (st', Ok static)
    /\ Forall is_static_entry static
    /\ files
       = output_entries results
           ++ [(YStr "system_report_summary.html", html)]
           ++ [(YStr "style.css", css)]
           ++ static
    /\ (static_dir P (world P st') = None -> static = [])
    /\ (forall children texts,
          static_dir P (world P st') = Some (Dir children) ->
          NoDup (map fst children) ->
          listed_texts P children texts ->
          static = static_named texts).
Proof.
  intros H. unfold generate_system_report in H.
  apply bind_inv_ok in H. destruct H as (configs & st1 & Hread & H).
  unfold assemble in H.
  destruct (report_loop configs ([], []) st1) as (st2 & results & Em & Ef & EF).
  apply bind_inv_ok in H. destruct H as (acc & st3 & Hloop & H).
  rewrite EF in Hloop. injection Hloop as <- <-. cbn [fst snd app] in H.
  apply bind_inv_ok in H. destruct H as (html & st4 & Hhtml & H).
  unfold generate_html in Hhtml.
  destruct (render_report P (sub_reports_of results) (world P st2)) as [h | ] eqn:Eh;
    [ | discriminate].
  injection Hhtml as <- <-.
  apply bind_inv_ok in H. destruct H as (css & st5 & Hcss & H).
  unfold read_style in Hcss.
  destruct (style_css P (world P st2)) as [c | ] eqn:Ec; [ | discriminate].
  injection Hcss as <- <-.
  apply bind_inv_ok in H. destruct H as (static & st6 & Hstatic & H).
  assert (st6 = st2 /\ Forall is_static_entry static
          /\ (static_dir P (world P st2) = None -> static = [])
          /\ (forall children texts,
                static_dir P (world P st2) = Some (Dir children) ->
                NoDup (map fst children) ->
                listed_texts P children texts ->
                static = static_named texts)) as (-> & Fs & Fn & Ft).
  { unfold read_static in Hstatic.
    destruct (static_dir P (world P st2)) as [tree | ].
    - destruct (read_files_from_dir P tree) as [entries | ] eqn:Et; [ | discriminate].
      injection Hstatic as <- <-. split; [reflexivity | ].
      split; [apply (read_files_from_dir_static P tree entries Et) | ].
      split; [discriminate | ].
      intros children texts E D T. injection E as ->.
      rewrite (read_files_from_dir_texts P children texts D T) in Et.
      injection Et as <-. reflexivity.
    - injection Hstatic as <- <-. split; [reflexivity | ].
      split; [constructor | ]. split; [reflexivity | discriminate]. }
  injection H as <- <-.
  exists configs, st1, results, h, c, static.
  repeat split; assumption.
Qed.

(** C7 fails on the code, by the defect of the static walk: with the static
    directory of [a.txt] and [sub/a.txt], the file list ends with three
    static entries, the file of the top directory being registered a second
    time after the one of the subdirectory, where the traversal of the
    assets has two entries. *)
Theorem static_tail_repeats_shadowed_file :
  (exists st,
      generate_system_report Demo.shadowed_host Demo.disk_document
        (Demo.start Demo.shadowed_host 0%nat)
      = (st,
         Ok [(YStr "disk.txt", ("/dev/sda1 40G 12G 28G 30% /" ++ Demo.nl)%string);
             (YStr "system_report_summary.html", "<html>disk</html>");
             (YStr "style.css", "body { margin: 0 }");
             (YStr "static/a.txt", "top");
             (YStr "static/a.txt", "nested");
             (YStr "static/a.txt", "top")]))
  /\ static_entries_spec Demo.shadowed_assets
     = [(YStr "static/a.txt", "top"); (YStr "static/a.txt", "nested")].
Proof.
  split; [eexists; reflexivity | reflexivity].
Qed.

(** *** Writing the archive *)

Lemma mapM_writestr (files : list file_entry) :
  Forall (fun e => exists n, fst e = YStr n) files ->
  forall st,
    mapM (writestr P) files st
    = (mkState P (world P st) (trace P st ++ archive_events files),
       Ok (map (fun _ => tt) files)).
Proof.
  induction 1 as [ | [name content] files (n & Hn) _ IH]; intros st.
  - simpl. rewrite app_nil_r. destruct st; reflexivity.
  - simpl in Hn. subst name. cbn [mapM]. unfold bind at 1.
    unfold writestr at 1. cbn [fst snd]. unfold emit.
    unfold bind at 1. rewrite IH. cbn [world trace archive_events flat_map fst snd].
    rewrite <- app_assoc. reflexivity.
Qed.

(** [main] on a document for which the file list is produced. *)
Lemma main_writes (document : yaml) (st st' : state P) (files : list file_entry) :
  generate_system_report P document st = (st', Ok files) ->
  Forall (fun e => exists n, fst e = YStr n) files ->
  main P document st
  = (mkState P (world P st')
       (trace P st' ++ ArchiveOpened :: archive_events files),
     Ok tt).
Proof.
  intros G F. unfold main. rewrite (bind_ok P _ _ _ _ _ G).
  unfold bind at 1. unfold emit. unfold bind at 1.
  rewrite (mapM_writestr files F). cbn [world trace].
  rewrite <- app_assoc. reflexivity.
Qed.

(** C4, as the code has it.  The configuration of the example is rejected
    when it is loaded: the command [net] declares no [output], so the run
    prints the error and exits with status 1 before anything is spawned or
    written.  With [output: net.txt] declared for [net] itself, on a host
    where [false] fails and [echo fallback-ok] prints its line, the run
    succeeds and writes the entry [net.txt] holding that line, ahead of the
    index, the stylesheet and the static assets. *)
Theorem net_example_needs_top_level_output (st : state P) :
  main P Demo.net_document st
  = (mkState P (world P st) (trace P st ++ [Printed "Error: net config is invalid"]),
     SysExit 1%Z)
  /\ forall (w1 w2 : World P) (html css : string) (static : list file_entry),
       (forall s, py_str P (YStr s) = s) ->
       check_output P "sh -c 'false'" [] None (world P st) = (w1, None) ->
       check_output P "sh -c 'echo fallback-ok'" [] None w1
       = (w2, Some ("fallback-ok" ++ Demo.nl)%string) ->
       render_report P
         [mkSubReportResult "net" ("fallback-ok" ++ Demo.nl)%string (YStr "net.txt") []]
         w2 = Some html ->
       style_css P w2 = Some css ->
       match static_dir P w2 with
       | Some tree => read_files_from_dir P tree
       | None => Some []
       end = Some static ->
       main P Demo.net_document_with_output st
       = (mkState P w2
            (trace P st
               ++ [Spawned "sh -c 'false'"; Spawned "sh -c 'echo fallback-ok'";
                   ArchiveOpened;
                   ArchiveEntry "net.txt" ("fallback-ok" ++ Demo.nl)%string;
                   ArchiveEntry "system_report_summary.html" html;
                   ArchiveEntry "style.css" css]
               ++ archive_events static),
          Ok tt).
Proof.
  split; [reflexivity | ].
  intros w1 w2 html css static Hstr Hfalse Hecho Hhtml Hcss Hstatic.
  set (fallback := mkCommandConfig "net" (YStr "echo fallback-ok") [] (YStr "net.txt") None).
  set (c := mkCommandConfig "net" (YStr "false") [] (YStr "net.txt") (Some fallback)).
  assert (L : read_commands P Demo.net_document_with_output st = (st, Ok [c]))
    by reflexivity.
  assert (S1 : sh_c P (YStr "false") = "sh -c 'false'")
    by (unfold sh_c; rewrite Hstr; reflexivity).
  assert (S2 : sh_c P (YStr "echo fallback-ok") = "sh -c 'echo fallback-ok'")
    by (unfold sh_c; rewrite Hstr; reflexivity).
  set (st2 := mkState P w2
                (trace P st ++ [Spawned "sh -c 'false'"; Spawned "sh -c 'echo fallback-ok'"])).
  set (r := mkSubReportResult "net" ("fallback-ok" ++ Demo.nl)%string (YStr "net.txt") []).
  assert (R : run_command P c st = (st2, Ok (Some r))).
  { rewrite (run_command_failure P c st w1) by (cbn [script c]; rewrite S1; exact Hfalse).
    cbn [on_fail c script]. rewrite S1.
    destruct (run_command_success P fallback
                (mkState P w1 (trace P st ++ [Spawned "sh -c 'false'"])) w2
                ("fallback-ok" ++ Demo.nl)%string)
      as (st' & sums & E & R).
    { cbn [script fallback world]. rewrite S2. exact Hecho. }
    cbn [summary_configs fallback mapM script trace] in E. rewrite S2 in E.
    injection E as <- <-. rewrite R. unfold st2, r.
    rewrite <- app_assoc. reflexivity. }
  assert (Fs : Forall is_static_entry static).
  { destruct (static_dir P w2) as [tree | ].
    - apply (read_files_from_dir_static P tree static Hstatic).
    - injection Hstatic as <-. constructor. }
  assert (G : generate_system_report P Demo.net_document_with_output st
              = (st2, Ok ([(YStr "net.txt", ("fallback-ok" ++ Demo.nl)%string);
                           (YStr "system_report_summary.html", html);
                           (YStr "style.css", css)] ++ static))).
  { unfold generate_system_report. rewrite (bind_ok P _ _ _ _ _ L).
    unfold assemble. cbn [foldM]. unfold report_round.
    unfold bind at 1 2 3. rewrite R. cbv [ret]. cbn [fst snd app].
    subst st2 r.
    unfold bind at 1. unfold generate_html. cbn [world]. rewrite Hhtml.
    unfold bind at 1. unfold read_style. cbn [world]. rewrite Hcss.
    unfold bind at 1. unfold read_static. cbn [world].
    destruct (static_dir P w2) as [tree | ].
    - rewrite Hstatic. reflexivity.
    - injection Hstatic as <-. reflexivity. }
  rewrite (main_writes _ _ _ _ G).
  - unfold st2. cbn [world trace archive_events flat_map fst snd app].
    rewrite <- app_assoc. reflexivity.
  - repeat (constructor; [eexists; reflexivity | ]).
    eapply Forall_impl; [ | exact Fs]. intros e (file & E). eexists. exact E.
Qed.

End Assembly.

(** ** The theorems on the example host *)

Section Witnesses.

Import Demo.

Lemma run_command_reflects_succeeding_attempt_witness :
  first_success user three_attempts 0%nat echo_attempt ("fallback-ok" ++ nl)%string 3%nat
  /\ exists st' r,
       run_command user three_attempts (start user 0%nat) = (st', Ok (Some r))
       /\ raw_output r = ("fallback-ok" ++ nl)%string
       /\ result_name r = "net"
       /\ result_output_file r = YStr "echo.txt"
       /\ exists trk,
            mapM (summarize user ("fallback-ok" ++ nl)%string)
              (summary_configs echo_attempt) (mkState user 3%nat trk)
            = (st', Ok (summaries r)).
Proof.
  assert (F : first_success user three_attempts 0%nat echo_attempt
                ("fallback-ok" ++ nl)%string 3%nat).
  { eapply success_later; [reflexivity | reflexivity | ].
    eapply success_later; [reflexivity | reflexivity | ].
    apply success_here. reflexivity. }
  split; [exact F | ].
  exact (run_command_reflects_succeeding_attempt user three_attempts echo_attempt
           (start user 0%nat) _ 3%nat F).
Defined.

Lemma summaries_length_matches_specs_witness :
  exists st' r,
    run_command user three_attempts (start user 0%nat) = (st', Ok (Some r))
    /\ exists ck wk,
         first_success user three_attempts 0%nat ck (raw_output r) wk
         /\ In ck (chain three_attempts)
         /\ length (summaries r) = length (summary_configs ck)
         /\ (forall w out,
               check_output user (sh_c user (script three_attempts)) [] None 0%nat
               = (w, Some out) ->
               ck = three_attempts).
Proof.
  eexists. eexists. split; [reflexivity | ].
  eapply (summaries_length_matches_specs user three_attempts (start user 0%nat)).
  reflexivity.
Defined.

(** C2 fails on the code when "its spec" is the spec of the command: the
    command [three_attempts] has two summary specs; its script and the
    script of its first fallback fail, the second fallback succeeds, and the
    result has the one summary of that fallback. *)
Lemma summaries_length_is_that_of_the_fallback :
  length (summary_configs three_attempts) = 2%nat
  /\ exists st r,
       run_command user three_attempts (start user 0%nat) = (st, Ok (Some r))
       /\ length (summaries r) = 1%nat
       /\ length (summaries r) <> length (summary_configs three_attempts).
Proof.
  split; [reflexivity | ]. eexists. eexists.
  split; [reflexivity | ]. split; [reflexivity | ]. discriminate.
Qed.

Lemma failed_summary_yields_sentinel_witness :
  exists st' sums_post,
    length sums_post = 1%nat
    /\ run_command user with_summaries (start user 0%nat)
       = (st', Ok (Some (mkSubReportResult "disk"
                           ("/dev/sda1 40G 12G 28G 30% /" ++ nl)%string
                           (YStr "disk.txt")
                           ([mkSubReportSummary (YStr "raw")
                               ("/dev/sda1 40G 12G 28G 30% /" ++ nl)%string]
                              ++ mkSubReportSummary (YStr "usage") "this summary is empty"
                              :: sums_post)))).
Proof.
  apply (failed_summary_yields_sentinel user with_summaries (start user 0%nat)
           (mkState user 2%nat [Spawned "sh -c 'df -h'"; Spawned "sh -c 'cat'"])
           1%nat 3%nat ("/dev/sda1 40G 12G 28G 30% /" ++ nl)%string
           [mkSummaryConfig (YStr "raw") (YStr "cat")]
           [mkSummaryConfig (YStr "first") (YStr "head -c 5")]
           (mkSummaryConfig (YStr "usage") (YStr "awk")));
    reflexivity.
Defined.

Lemma fallback_entry_uses_top_level_output_file_witness :
  exists st' r,
    run_command user net_with_fallback (start user 0%nat) = (st', Ok (Some r))
    /\ result_output_file r = YStr "fallback.txt"
    /\ raw_output r = ("fallback-ok" ++ nl)%string
    /\ report_round user ([], []) net_with_fallback (start user 0%nat)
       = (st', Ok ([r], [(YStr "net.txt", ("fallback-ok" ++ nl)%string)])).
Proof.
  apply (fallback_entry_uses_top_level_output_file user net_with_fallback
           (mkCommandConfig "net" (YStr "echo fallback-ok") [] (YStr "fallback.txt") None)
           (mkCommandConfig "net" (YStr "echo fallback-ok") [] (YStr "fallback.txt") None)
           (start user 0%nat) 1%nat 2%nat ("fallback-ok" ++ nl)%string [] []).
  - reflexivity.
  - reflexivity.
  - apply success_here. reflexivity.
Defined.

Lemma user_is_unprivileged : unprivileged user.
Proof.
  intros w. exists (S w), ("1000" ++ nl)%string, 1000%Z.
  repeat split. discriminate.
Qed.

Lemma required_privilege_aborts_run_witness :
  unprivileged user
  /\ In ("kernel", kernel_object) privileged_entries
  /\ requires_root kernel_object = true
  /\ exists evs,
       is_ok (snd (main user (YMap privileged_entries) (start user 0%nat))) = false
       /\ trace user (fst (main user (YMap privileged_entries) (start user 0%nat)))
          = [] ++ evs
       /\ Forall loader_event evs.
Proof.
  split; [exact user_is_unprivileged | ].
  split; [right; left; reflexivity | ].
  split; [reflexivity | ].
  apply (required_privilege_aborts_run user privileged_entries "kernel" kernel_object
           (start user 0%nat) user_is_unprivileged).
  - right. left. reflexivity.
  - reflexivity.
Defined.

(** C5 fails on the code: a command object with [run] and no [output] is
    not accepted; loading it is a fatal configuration error. *)
Lemma output_is_not_optional :
  has_key "run" no_output = true
  /\ has_key "output" no_output = false
  /\ CommandConfig_init user "disk" (YMap no_output) (start user 0%nat)
     = (mkState user 0%nat [Printed "Error: disk config is invalid"], SysExit 1%Z)
  /\ main user (YMap [("disk", YMap no_output)]) (start user 0%nat)
     = (mkState user 0%nat [Printed "Error: disk config is invalid"], SysExit 1%Z).
Proof. repeat split. Qed.

Lemma missing_output_is_fatal_witness :
  lookup "output" no_output = None
  /\ CommandConfig_init user "disk" (YMap no_output) (start user 0%nat)
     = (mkState user 0%nat [Printed "Error: disk config is invalid"], SysExit 1%Z)
  /\ forall document st0,
       In ("disk", YMap no_output) document ->
       exists evs,
         is_ok (snd (main user (YMap document) st0)) = false
         /\ trace user (fst (main user (YMap document) st0)) = trace user st0 ++ evs
         /\ Forall loader_event evs.
Proof.
  split; [reflexivity | ].
  apply (missing_output_is_fatal user "disk" no_output (start user 0%nat)).
  reflexivity.
Defined.

Lemma preferred_privilege_only_warns_witness :
  is_root user (start user 0%nat) = (mkState user 1%nat [Spawned "id -u"], Ok false)
  /\ CommandConfig_init user "os" (YMap preferred) (start user 0%nat)
     = CommandConfig_init user "os" (YMap (without "superuser" preferred))
         (mkState user 1%nat
            [Spawned "id -u";
             Printed "Warning: You have insufficient permissions to run uname. Output from this command will be skipped in the system report."])
  /\ main user (YMap [("os", YMap preferred)]) (start user 0%nat)
     = (mkState user 2%nat
          [Spawned "id -u";
           Printed "Warning: You have insufficient permissions to run uname. Output from this command will be skipped in the system report.";
           Spawned "sh -c 'uname'";
           ArchiveOpened;
           ArchiveEntry "uname.txt" ("Linux" ++ nl)%string;
           ArchiveEntry "system_report_summary.html" "<html>os</html>";
           ArchiveEntry "style.css" "body { margin: 0 }";
           ArchiveEntry "static/logo.svg" "<svg/>"],
        Ok tt).
Proof.
  destruct (preferred_privilege_only_warns user "os" preferred (YStr "uname")
              (YStr "uname.txt") (start user 0%nat)
              (mkState user 1%nat [Spawned "id -u"])
              eq_refl eq_refl eq_refl eq_refl) as (T & E & G & _).
  split; [reflexivity | ]. split; [exact E | ].
  rewrite (proj2 (G [])). reflexivity.
Defined.

Lemma file_list_order_witness :
  exists st' files,
    generate_system_report user three_commands (start user 0%nat) = (st', Ok files)
    /\ exists configs st1 results html css static,
         read_commands user three_commands (start user 0%nat) = (st1, Ok configs)
         /\ mapM (run_one user) configs st1 = (st', Ok results)
         /\ map fst results = configs
         /\ render_report user (sub_reports_of results) (world user st') = Some html
         /\ style_css user (world user st') = Some css
         /\ read_static user st' = (st', Ok static)
         /\ Forall is_static_entry static
         /\ files
            = output_entries results
                ++ [(YStr "system_report_summary.html", html)]
                ++ [(YStr "style.css", css)]
                ++ static
         /\ (static_dir user (world user st') = None -> static = [])
         /\ (forall children texts,
               static_dir user (world user st') = Some (Dir children) ->
               NoDup (map fst children) ->
               listed_texts user children texts ->
               static = static_named texts).
Proof.
  eexists. eexists.
  refine ((fun G => conj G (file_list_order user three_commands (start user 0%nat) _ _ G)) _).
  reflexivity.
Defined.

(** C4 fails on the code: on the configuration of the example the run
    exits with status 1 while loading, and never writes [net.txt]. *)
Lemma net_example_is_rejected :
  main user net_document (start user 0%nat)
  = (mkState user 0%nat [Printed "Error: net config is invalid"], SysExit 1%Z)
  /\ ~ (exists st,
          main user net_document (start user 0%nat) = (st, Ok tt)
          /\ In (ArchiveEntry "net.txt" ("fallback-ok" ++ nl)%string) (trace user st)).
Proof.
  split; [reflexivity | ]. intros (st & H & _). discriminate H.
Qed.

Lemma net_example_needs_top_level_output_witness :
  main user net_document (start user 0%nat)
  = (mkState user 0%nat [Printed "Error: net config is invalid"], SysExit 1%Z)
  /\ main user net_document_with_output (start user 0%nat)
     = (mkState user 2%nat
          [Spawned "sh -c 'false'"; Spawned "sh -c 'echo fallback-ok'";
           ArchiveOpened;
           ArchiveEntry "net.txt" ("fallback-ok" ++ nl)%string;
           ArchiveEntry "system_report_summary.html" "<html>net</html>";
           ArchiveEntry "style.css" "body { margin: 0 }";
           ArchiveEntry "static/logo.svg" "<svg/>"],
        Ok tt).
Proof.
  destruct (net_example_needs_top_level_output user (start user 0%nat)) as (A & B).
  split; [exact A | ].
  apply (B 1%nat 2%nat "<html>net</html>" "body { margin: 0 }"
           [(YStr "static/logo.svg", "<svg/>")]); try reflexivity.
Defined.

End Witnesses.

(** ** More about [run_command] *)

Section Attempts.

Context (P : Platform).

Lemma state_eta (st : state P) : mkState P (world P st) (trace P st) = st.
Proof. destruct st; reflexivity. Qed.

(** The summary loop spawns the summary scripts in order, nothing else. *)
Lemma summaries_trace (out : string) (l : list SummaryConfig) :
  forall st st' sums,
    mapM (summarize P out) l st = (st', Ok sums) ->
    trace P st' = trace P st ++ map (summary_spawn_of P) l.
Proof.
  induction l as [ | sc l IH]; intros st st' sums H.
  - injection H as <- _. rewrite app_nil_r. reflexivity.
  - cbn [mapM] in H. apply bind_inv_ok in H. destruct H as (s & st1 & Hs & H).
    apply bind_inv_ok in H. destruct H as (ss & st2 & Hss & H).
    injection H as <- _. rewrite (IH _ _ _ Hss).
    rewrite summarize_eq in Hs.
    destruct (check_output P _ _ _ _) as [w r]. injection Hs as <- _.
    cbn [trace map]. rewrite <- app_assoc. reflexivity.
Qed.

Lemma run_command_all_fail (c : CommandConfig) (w w' : World P) :
  all_fail P c w w' ->
  forall st, world P st = w ->
    run_command P c st
    = (mkState P w' (trace P st ++ map (spawn_of P) (chain c)), Ok None).
Proof.
  induction 1 as [c w w' H Hf | c f w w1 w' H Hf _ IH]; intros st <-.
  - rewrite (run_command_failure P c st w' H), Hf.
    destruct c as [n s l o g]. simpl in Hf. subst g. reflexivity.
  - rewrite (run_command_failure P c st w1 H), Hf.
    rewrite (IH (mkState P w1 (trace P st ++ [Spawned (sh_c P (script c))])) eq_refl).
    cbn [trace].
    destruct c as [n s l o g]. simpl in Hf. subst g.
    cbn [chain map]. rewrite <- app_assoc. reflexivity.
Qed.

(** A chain all of whose scripts fail yields nothing, after spawning the
    script of every spec of the chain in order; and [run_command] yields
    nothing in that case only. *)
Theorem run_command_yields_nothing_when_all_fail (c : CommandConfig) (st : state P) :
  (forall w',
      all_fail P c (world P st) w' ->
      run_command P c st
      = (mkState P w' (trace P st ++ map (spawn_of P) (chain c)), Ok None))
  /\ (forall st',
        run_command P c st = (st', Ok None) ->
        all_fail P c (world P st) (world P st')).
Proof.
  split.
  - intros w' F. apply (run_command_all_fail c _ w' F st eq_refl).
  - revert st. induction c as [n s l o | n s l o f IH] using chain_ind;
      intros st st' R.
    + set (c := mkCommandConfig n s l o None) in *.
      destruct (check_output P (sh_c P (script c)) [] None (world P st))
        as [w [out | ]] eqn:H.
      * destruct (run_command_success P c st w out H) as (st2 & sums & _ & R2).
        rewrite R2 in R. discriminate.
      * rewrite (run_command_failure P c st w H) in R. simpl in R.
        injection R as <-. apply fail_last; [exact H | reflexivity].
    + set (c := mkCommandConfig n s l o (Some f)) in *.
      destruct (check_output P (sh_c P (script c)) [] None (world P st))
        as [w [out | ]] eqn:H.
      * destruct (run_command_success P c st w out H) as (st2 & sums & _ & R2).
        rewrite R2 in R. discriminate.
      * rewrite (run_command_failure P c st w H) in R. simpl in R.
        apply (fail_next P c f _ w); [exact H | reflexivity | ].
        apply (IH _ _ R).
Qed.

(** [run_command] spawns the scripts of the chain in order up to the first
    one that succeeds, then the summary scripts of that spec in order, and
    nothing else: no summary script of a failed attempt, no script of a
    later fallback. *)
Theorem run_command_spawns_up_to_first_success
    (c ck : CommandConfig) (st : state P) (out : string) (wk : World P) :
  first_success P c (world P st) ck out wk ->
  exists st' r before,
    run_command P c st = (st', Ok (Some r))
    /\ chain c = before ++ chain ck
    /\ trace P st'
       = trace P st ++ map (spawn_of P) before ++ [spawn_of P ck]
           ++ map (summary_spawn_of P) (summary_configs ck).
Proof.
  intros F. remember (world P st) as w eqn:Hw. revert st Hw.
  induction F as [c w wk out H | c f ck w w1 wk out H Hf _ IH]; intros st ->.
  - destruct (run_command_success P c st wk out H) as (st' & sums & E & R).
    exists st'. eexists. exists []. split; [exact R | ]. split; [reflexivity | ].
    rewrite (summaries_trace _ _ _ _ _ E). cbn [trace map app].
    rewrite <- app_assoc. reflexivity.
  - destruct (IH (mkState P w1 (trace P st ++ [Spawned (sh_c P (script c))])) eq_refl)
      as (st' & r & before & R & C & T).
    exists st', r, (c :: before).
    rewrite (run_command_failure P c st w1 H), Hf.
    split; [exact R | ]. split.
    + destruct c as [n s l o g]. simpl in Hf. subst g. cbn [chain app].
      rewrite C. reflexivity.
    + rewrite T. cbn [trace map app]. rewrite <- app_assoc. reflexivity.
Qed.

Lemma summaries_follow (out : string) (l : list SummaryConfig) :
  forall st st' sums,
    mapM (summarize P out) l st = (st', Ok sums) ->
    Forall2
      (fun sc s =>
         title s = summary_title sc
         /\ (content s = empty_summary
             \/ exists w w',
                  check_output P (sh_c P (summary_script sc)) (scripts_env P)
                    (Some out) w = (w', Some (content s))))
      l sums.
Proof.
  induction l as [ | sc l IH]; intros st st' sums E.
  - injection E as _ <-. constructor.
  - cbn [mapM] in E. apply bind_inv_ok in E. destruct E as (s & st2 & Hs & E).
    apply bind_inv_ok in E. destruct E as (ss & st3 & Hss & E).
    injection E as _ <-. constructor; [ | apply (IH _ _ _ Hss)].
    rewrite summarize_eq in Hs.
    destruct (check_output P _ _ _ _) as [w [text | ]] eqn:C;
      injection Hs as _ <-; cbn [content title]; split; try reflexivity.
    + right. exists (world P st), w. exact C.
    + left. reflexivity.
Qed.

(** The summaries of a result follow the summary specs of the attempt that
    produced it (the first spec of the chain whose script succeeded, with
    the raw output of the result), one for one and in order: each carries
    the title of its spec, and holds what the script of that spec printed on
    the raw output of the command, or the sentinel text.  The result carries
    the name and the output file of that attempt's spec. *)
Theorem summaries_follow_specs
    (c : CommandConfig) (st st' : state P) (r : SubReportResult) :
  run_command P c st = (st', Ok (Some r)) ->
  exists ck wk,
    first_success P c (world P st) ck (raw_output r) wk
    /\ In ck (chain c)
    /\ result_name r = name ck
    /\ result_output_file r = output_file ck
    /\ Forall2
         (fun sc s =>
            title s = summary_title sc
            /\ (content s = empty_summary
                \/ exists w w',
                     check_output P (sh_c P (summary_script sc)) (scripts_env P)
                       (Some (raw_output r)) w = (w', Some (content s))))
         (summary_configs ck) (summaries r).
Proof.
  intros R.
  destruct (run_command_inv P c st)
    as [(st1 & R1) | (ck & out & wk & st1 & sums & trk & F & I & E & R1)];
    rewrite R1 in R; [discriminate | ].
  injection R as <- <-. exists ck, wk.
  cbn [summaries result_name result_output_file raw_output].
  repeat split; try exact I; try exact F.
  apply (summaries_follow out _ _ _ _ E).
Qed.

End Attempts.

(** ** More about configuration loading *)

Section Loading.

Context (P : Platform).

(** *** The validity check *)

Lemma check_fields_map (key : string) (entries : list (string * yaml)) (st : state P) :
  check_fields P key (YMap entries) st
  = if valid_fields entries then (st, Ok tt)
    else (mkState P (world P st) (trace P st ++ [Printed (invalid_error key)]),
          SysExit 1%Z).
Proof.
  unfold check_fields, valid_fields, py_in, py_getitem, has_key.
  destruct (lookup "run" entries), (lookup "output" entries),
    (lookup "superuser" entries) as [v | ]; try reflexivity.
  cbv [bind ret]. cbn [negb orb andb].
  destruct (eq_str v "required" || eq_str v "preferred"); reflexivity.
Qed.

(** A command object without [run], without [output], or whose [superuser]
    is neither ["required"] nor ["preferred"], is rejected: loading prints
    "Error: <name> config is invalid" and exits with status 1, and does
    nothing else (the uid is not probed). *)
Theorem invalid_fields_are_fatal
    (key : string) (entries : list (string * yaml)) (st : state P) :
  valid_fields entries = false ->
  CommandConfig_init P key (YMap entries) st
  = (mkState P (world P st) (trace P st ++ [Printed (invalid_error key)]),
     SysExit 1%Z).
Proof.
  intros V. rewrite CommandConfig_init_eq. unfold CommandConfig_body.
  unfold bind at 1. rewrite check_fields_map, V. reflexivity.
Qed.

(** *** What a loaded spec holds *)

Lemma SummaryConfig_init_ok (item : yaml) (st st' : state P) (sc : SummaryConfig) :
  SummaryConfig_init P item st = (st', Ok sc) -> summary_of item sc.
Proof.
  unfold SummaryConfig_init. intros H.
  apply bind_inv_ok in H. destruct H as (has_title & st1 & _ & H).
  apply bind_inv_ok in H. destruct H as (complete & st2 & _ & H).
  destruct complete.
  - apply bind_inv_ok in H. destruct H as (t & st3 & Ht & H).
    apply bind_inv_ok in H. destruct H as (s & st4 & Hs & H).
    injection H as _ <-.
    destruct (py_getitem_ok P _ _ _ (ex_intro _ _ (ex_intro _ _ Ht)))
      as (entries & -> & Lt).
    destruct (py_getitem_ok P _ _ _ (ex_intro _ _ (ex_intro _ _ Hs)))
      as (entries' & E & Ls).
    injection E as <-. exists entries. repeat split; assumption.
  - apply bind_inv_ok in H. destruct H as (u & st3 & _ & H). discriminate.
Qed.

Lemma summary_configs_ok (items : list yaml) :
  forall st st' scs,
    mapM (SummaryConfig_init P) items st = (st', Ok scs) ->
    Forall2 summary_of items scs.
Proof.
  induction items as [ | item items IH]; intros st st' scs H.
  - injection H as _ <-. constructor.
  - cbn [mapM] in H. apply bind_inv_ok in H. destruct H as (sc & st1 & Hsc & H).
    apply bind_inv_ok in H. destruct H as (rest & st2 & Hrest & H).
    injection H as _ <-. constructor.
    + apply (SummaryConfig_init_ok _ _ _ _ Hsc).
    + apply (IH _ _ _ Hrest).
Qed.

Lemma on_fail_objects_map (entries : list (string * yaml)) :
  on_fail_objects (YMap entries)
  = YMap entries
    :: match lookup "on-fail" entries with
       | Some v => on_fail_objects v
       | None => []
       end.
Proof.
  cbn [on_fail_objects]. f_equal.
  induction entries as [ | [k x] rest IH]; simpl; [reflexivity | ].
  destruct (String.eqb k "on-fail"); [reflexivity | exact IH].
Qed.

(** One step of loading: the spec built from an object, and the spec built
    from the object under its [on-fail] key, if it has one. *)
Lemma loaded_step (key : string) (config : yaml) (st st' : state P)
    (c : CommandConfig) :
  CommandConfig_init P key config st = (st', Ok c) ->
  spec_of key config c
  /\ exists entries,
       config = YMap entries
       /\ match lookup "on-fail" entries with
          | Some v =>
              exists f st1 st2,
                on_fail c = Some f /\ CommandConfig_init P key v st1 = (st2, Ok f)
          | None => on_fail c = None
          end.
Proof.
  intros H.
  rewrite CommandConfig_init_eq in H. unfold CommandConfig_body in H.
  apply bind_inv_ok in H. destruct H as (u & st1 & Hcheck & H).
  apply bind_inv_ok in H. destruct H as (run & st2 & Hrun & H).
  apply bind_inv_ok in H. destruct H as (u' & st3 & _ & H).
  destruct (py_getitem_ok P _ _ _ (ex_intro _ _ (ex_intro _ _ Hrun)))
    as (entries & -> & Lrun).
  rewrite check_fields_map in Hcheck.
  destruct (valid_fields entries) eqn:V; [ | discriminate]. clear Hcheck.
  unfold load_rest in H.
  apply bind_inv_ok in H. destruct H as (summary & st4 & Hsum & H).
  apply bind_inv_ok in H. destruct H as (items & st5 & Hitems & H).
  apply bind_inv_ok in H. destruct H as (scs & st6 & Hscs & H).
  apply bind_inv_ok in H. destruct H as (o & st7 & Ho & H).
  apply bind_inv_ok in H. destruct H as (has & st8 & Hhas & H).
  apply bind_inv_ok in H. destruct H as (onf & st9 & Honf & H).
  injection H as _ <-.
  apply summary_configs_ok in Hscs.
  assert (Lout : lookup "output" entries = Some o).
  { unfold valid_fields, has_key in V. cbn [py_get] in Ho.
    destruct (lookup "output" entries) as [v | ].
    - injection Ho as _ <-. reflexivity.
    - destruct (lookup "run" entries); discriminate. }
  split.
  - exists entries. cbn [name script output_file summary_configs].
    repeat split; try assumption.
    + intros N. cbn [py_get] in Hsum. rewrite N in Hsum. injection Hsum as _ <-.
      injection Hitems as _ <-. inversion Hscs. reflexivity.
    + intros l L. cbn [py_get] in Hsum. rewrite L in Hsum. injection Hsum as _ <-.
      injection Hitems as _ <-. exact Hscs.
  - exists entries. split; [reflexivity | ].
    cbn [py_in] in Hhas. injection Hhas as _ <-. unfold has_key in Honf.
    destruct (lookup "on-fail" entries) as [v | ] eqn:L.
    + apply bind_inv_ok in Honf. destruct Honf as (v' & st10 & Hv & Honf).
      apply bind_inv_ok in Honf. destruct Honf as (f & st11 & Hf & Honf).
      injection Honf as _ <-.
      cbn [py_getitem] in Hv. rewrite L in Hv. injection Hv as _ <-.
      exists f, st10, st11. split; [reflexivity | exact Hf].
    + injection Honf as _ <-. reflexivity.
Qed.

(** A loaded spec mirrors the configuration it was built from: the chain
    of the spec has one spec per object of the [on-fail] nesting, outermost
    first; each carries the name of the command, the [run] and [output]
    values of a valid object, and one summary spec per summary object, in
    order, with its [title] and [run]. *)
Theorem loaded_chain_mirrors_configuration (key : string) (config : yaml) :
  forall (st st' : state P) (c : CommandConfig),
    CommandConfig_init P key config st = (st', Ok c) ->
    Forall2 (spec_of key) (on_fail_objects config) (chain c).
Proof.
  induction config as [config IH] using on_fail_ind. intros st st' c H.
  destruct (loaded_step key config st st' c H) as (S & entries & -> & F).
  rewrite on_fail_objects_map.
  destruct c as [n run scs o onf]. cbn [on_fail] in F.
  destruct (lookup "on-fail" entries) as [v | ] eqn:L.
  - destruct F as (f & st1 & st2 & -> & Hf). cbn [chain].
    constructor; [exact S | ]. apply (IH entries v eq_refl L _ _ _ Hf).
  - subst onf. cbn [chain]. constructor; [exact S | constructor].
Qed.

(** [read_commands] builds one spec per entry of the document, in the order
    of the document, each named by its key. *)
Theorem read_commands_keeps_document_order
    (entries : list (string * yaml)) (st st' : state P)
    (configs : list CommandConfig) :
  read_commands P (YMap entries) st = (st', Ok configs) ->
  map name configs = map fst entries
  /\ Forall2 (fun entry c => spec_of (fst entry) (snd entry) c) entries configs.
Proof.
  cbn [read_commands]. revert st st' configs.
  induction entries as [ | [k v] rest IH]; intros st st' configs H.
  - injection H as _ <-. split; [reflexivity | constructor].
  - cbn [mapM] in H. apply bind_inv_ok in H. destruct H as (c & st1 & Hc & H).
    apply bind_inv_ok in H. destruct H as (cs & st2 & Hcs & H).
    injection H as _ <-. destruct (IH _ _ _ Hcs) as (N & F).
    cbn [fst snd] in Hc.
    pose proof (proj1 (loaded_step k v st st1 c Hc)) as S.
    split.
    + cbn [map fst]. rewrite N. f_equal.
      destruct S as (es & _ & _ & Hn & _). exact Hn.
    + constructor; [exact S | exact F].
Qed.

End Loading.

(** ** More about the privilege gate and the summary objects *)

Section Privilege.

Context (P : Platform).

(** With root privilege, [superuser] changes nothing but the probe: after
    [is_root()] answered yes, loading a valid command object is loading the
    same object without its [superuser] key, be it ["required"] or
    ["preferred"]. *)
Theorem root_privilege_only_probes
    (key : string) (entries : list (string * yaml)) (run output superuser : yaml)
    (st st1 : state P) :
  lookup "run" entries = Some run ->
  lookup "output" entries = Some output ->
  lookup "superuser" entries = Some superuser ->
  eq_str superuser "required" || eq_str superuser "preferred" = true ->
  is_root P st = (st1, Ok true) ->
  CommandConfig_init P key (YMap entries) st
  = CommandConfig_init P key (YMap (without "superuser" entries)) st1.
Proof.
  intros Lr Lo Ls V R. rewrite !CommandConfig_init_eq.
  unfold CommandConfig_body, check_fields, privilege_gate, py_in, py_getitem, has_key.
  rewrite lookup_without_same.
  rewrite !lookup_without_other by discriminate.
  rewrite Lr, Lo, Ls. cbv [bind ret]. cbn [negb orb]. rewrite V. cbn [negb].
  rewrite R. rewrite load_rest_without_superuser. reflexivity.
Qed.

(** Without root privilege, a valid command object with [superuser:
    required] ends loading: after the probe, loading prints that the
    permissions are insufficient to run the script and that no report will
    be generated, and exits with status 1. *)
Theorem required_privilege_exits_with_message
    (key : string) (entries : list (string * yaml)) (run output superuser : yaml)
    (st st1 : state P) :
  lookup "run" entries = Some run ->
  lookup "output" entries = Some output ->
  lookup "superuser" entries = Some superuser ->
  eq_str superuser "required" = true ->
  is_root P st = (st1, Ok false) ->
  CommandConfig_init P key (YMap entries) st
  = (mkState P (world P st1) (trace P st1 ++ [Printed (insufficient_error P run)]),
     SysExit 1%Z).
Proof.
  intros Lr Lo Ls V R. rewrite CommandConfig_init_eq.
  unfold CommandConfig_body, check_fields, privilege_gate, py_in, py_getitem, has_key.
  rewrite Lr, Lo, Ls. cbv [bind ret]. cbn [negb orb]. rewrite V. cbn [negb orb].
  rewrite R. reflexivity.
Qed.

(** When the probe itself fails ([id -u] fails, or prints no integer),
    loading a valid command object that has a [superuser] key raises: the
    run ends on an exception, with no diagnostic printed. *)
Theorem failed_probe_raises
    (key : string) (entries : list (string * yaml)) (run output superuser : yaml)
    (st : state P) :
  lookup "run" entries = Some run ->
  lookup "output" entries = Some output ->
  lookup "superuser" entries = Some superuser ->
  eq_str superuser "required" || eq_str superuser "preferred" = true ->
  (forall uid w out,
      check_output P "id -u" [] None (world P st) = (w, Some out) ->
      py_int P out <> Some uid) ->
  exists w,
    CommandConfig_init P key (YMap entries) st
    = (mkState P w (trace P st ++ [Spawned "id -u"]), Raised).
Proof.
  intros Lr Lo Ls V F.
  assert (R : exists w,
             is_root P st = (mkState P w (trace P st ++ [Spawned "id -u"]), Raised)).
  { unfold is_root, bind, get_cmd_output, subprocess_check_output.
    destruct (check_output P "id -u" [] None (world P st)) as [w [out | ]] eqn:C.
    - exists w. destruct (py_int P out) as [uid | ] eqn:I; [ | reflexivity].
      exfalso. apply (F uid w out eq_refl I).
    - exists w. reflexivity. }
  destruct R as (w & R). exists w. rewrite CommandConfig_init_eq.
  unfold CommandConfig_body, check_fields, privilege_gate, py_in, py_getitem, has_key.
  rewrite Lr, Lo, Ls. cbv [bind ret]. cbn [negb orb]. rewrite V. cbn [negb].
  rewrite R. reflexivity.
Qed.

(** A summary object without [title] or without [run] is rejected with
    "Error: summary config is incomplete" and exit status 1; a document
    with such an object in the [summary] list of a command ends the run in
    configuration loading, before any command is spawned. *)
Theorem incomplete_summary_is_fatal
    (item : list (string * yaml)) :
  has_key "title" item && has_key "run" item = false ->
  (forall st,
      SummaryConfig_init P (YMap item) st
      = (mkState P (world P st)
           (trace P st ++ [Printed "Error: summary config is incomplete"]),
         SysExit 1%Z))
  /\ (forall key entries items document st,
        lookup "summary" entries = Some (YList items) ->
        In (YMap item) items ->
        In (key, YMap entries) document ->
        exists evs,
          is_ok (snd (main P (YMap document) st)) = false
          /\ trace P (fst (main P (YMap document) st)) = trace P st ++ evs
          /\ Forall loader_event evs).
Proof.
  intros V.
  assert (S : forall st,
             SummaryConfig_init P (YMap item) st
             = (mkState P (world P st)
                  (trace P st ++ [Printed "Error: summary config is incomplete"]),
                SysExit 1%Z)).
  { intros st. unfold SummaryConfig_init, py_in.
    destruct (has_key "title" item); cbn [andb] in V; cbv [bind ret];
      [rewrite V | ]; reflexivity. }
  split; [exact S | ].
  intros key entries items document st L I D.
  apply (main_ends_in_loader P document key (YMap entries) st D).
  intros st0. rewrite CommandConfig_init_eq. revert st0.
  change (never_ok (CommandConfig_body P key (YMap entries) (CommandConfig_init P key))).
  unfold CommandConfig_body.
  apply never_ok_bind_r. intros ? _.
  apply never_ok_bind_r. intros run _.
  apply never_ok_bind_r. intros ? _.
  unfold load_rest, py_get. rewrite L.
  apply never_ok_bind_r. intros summary Hs.
  destruct Hs as (s1 & s2 & Hs). injection Hs as _ <-.
  apply never_ok_bind_r. intros l Hl.
  destruct Hl as (s1' & s2' & Hl). injection Hl as _ <-.
  apply never_ok_bind_l.
  apply (never_ok_mapM P _ _ (YMap item) I).
  intros st0. rewrite S. reflexivity.
Qed.

End Privilege.

(** ** What a run emits *)

Section Events.

Context (P : Platform).

Lemma emits_weaken {A : Type} (Q Q' : event -> Prop) (m : M P A) :
  (forall e, Q e -> Q' e) -> emits Q m -> emits Q' m.
Proof.
  intros W H st. destruct (H st) as (evs & T & F). exists evs.
  split; [exact T | ]. eapply Forall_impl; [exact W | exact F].
Qed.

Lemma emits_silent {A : Type} (Q : event -> Prop) (m : M P A) :
  (forall st, fst (m st) = st) -> emits Q m.
Proof.
  intros H st. exists []. rewrite H, app_nil_r. split; [reflexivity | constructor].
Qed.

Lemma emits_bind {A B : Type} (Q : event -> Prop) (m : M P A) (k : A -> M P B) :
  emits Q m ->
  (forall a, (exists st st', m st = (st', Ok a)) -> emits Q (k a)) ->
  emits Q (bind m k).
Proof.
  intros Hm Hk st. unfold bind.
  destruct (Hm st) as (e1 & T1 & F1).
  destruct (m st) as [st1 [a | status | ]] eqn:E; simpl in T1;
    try (exists e1; split; assumption).
  destruct (Hk a (ex_intro _ st (ex_intro _ st1 E)) st1) as (e2 & T2 & F2).
  exists (e1 ++ e2). rewrite T2, T1, app_assoc. split; [reflexivity | ].
  apply Forall_app. split; assumption.
Qed.

Lemma emits_try {A : Type} (Q : event -> Prop) (body handler : M P A) :
  emits Q body -> emits Q handler -> emits Q (try_except body handler).
Proof.
  intros Hb Hh st. unfold try_except.
  destruct (Hb st) as (e1 & T1 & F1).
  destruct (body st) as [st1 [a | status | ]]; simpl in T1;
    try (exists e1; split; assumption);
    destruct (Hh st1) as (e2 & T2 & F2);
    exists (e1 ++ e2); rewrite T2, T1, app_assoc;
    (split; [reflexivity | apply Forall_app; split; assumption]).
Qed.

Lemma emits_emit (Q : event -> Prop) (e : event) : Q e -> emits Q (emit P e).
Proof.
  intros H st. exists [e]. split; [reflexivity | ]. constructor; [exact H | constructor].
Qed.

Lemma emits_mapM {A B : Type} (Q : event -> Prop) (f : A -> M P B) (l : list A) :
  (forall x, In x l -> emits Q (f x)) -> emits Q (mapM f l).
Proof.
  induction l as [ | x l IH]; intros H; cbn [mapM].
  - apply emits_silent. reflexivity.
  - apply emits_bind; [apply H; left; reflexivity | intros b _].
    apply emits_bind; [apply IH; intros y I; apply H; right; exact I | intros bs _].
    apply emits_silent. reflexivity.
Qed.

Lemma emits_foldM {A B : Type} (Q : event -> Prop) (f : A -> B -> M P A) (l : list B) :
  (forall acc x, emits Q (f acc x)) -> forall acc, emits Q (foldM f acc l).
Proof.
  intros H. induction l as [ | x l IH]; intros acc; cbn [foldM].
  - apply emits_silent. reflexivity.
  - apply emits_bind; [apply H | intros acc' _; apply IH].
Qed.

Lemma emits_subprocess (Q : event -> Prop) (cmd : string)
    (env : list (string * string)) (input : option string) :
  Q (Spawned cmd) -> emits Q (subprocess_check_output P cmd env input).
Proof.
  intros H st. exists [Spawned cmd]. unfold subprocess_check_output.
  destruct (check_output P cmd env input (world P st)) as [w r].
  split; [reflexivity | ]. constructor; [exact H | constructor].
Qed.

Lemma emits_py_in (Q : event -> Prop) (key : string) (v : yaml) :
  emits Q (py_in P key v).
Proof. apply emits_silent. intros st. destruct v; reflexivity. Qed.

Lemma emits_py_getitem (Q : event -> Prop) (v : yaml) (key : string) :
  emits Q (py_getitem P v key).
Proof.
  apply emits_silent. intros st. destruct v; try reflexivity.
  simpl. destruct (lookup key entries); reflexivity.
Qed.

Lemma emits_py_get (Q : event -> Prop) (v : yaml) (key : string) (d : yaml) :
  emits Q (py_get P v key d).
Proof.
  apply emits_silent. intros st. destruct v; try reflexivity.
  simpl. destruct (lookup key entries); reflexivity.
Qed.

Lemma emits_py_iter (Q : event -> Prop) (v : yaml) : emits Q (py_iter P v).
Proof. apply emits_silent. intros st. destruct v; reflexivity. Qed.

Ltac prints_step :=
  first
    [ apply emits_emit; exact I
    | apply emits_py_in
    | apply emits_py_getitem
    | apply emits_py_get
    | apply emits_py_iter
    | apply emits_silent; reflexivity
    | apply emits_bind; [ | intros ? ? ]
    | match goal with
      | |- emits _ (if ?b then _ else _) => destruct b
      end ].

Lemma prints_SummaryConfig_init (config : yaml) :
  emits is_printed (SummaryConfig_init P config).
Proof. unfold SummaryConfig_init, print. repeat prints_step. Qed.

Lemma prints_check_fields (key : string) (config : yaml) :
  emits is_printed (check_fields P key config).
Proof. unfold check_fields, print. repeat prints_step. Qed.

Lemma find_mentions_superuser (entries : list (string * yaml)) :
  (fix find (l : list (string * yaml)) : bool :=
     match l with
     | [] => false
     | (k, v) :: rest =>
         if String.eqb k "on-fail" then mentions_superuser v else find rest
     end) entries
  = match lookup "on-fail" entries with
    | Some v => mentions_superuser v
    | None => false
    end.
Proof.
  induction entries as [ | [k x] rest IH]; simpl; [reflexivity | ].
  destruct (String.eqb k "on-fail"); [reflexivity | exact IH].
Qed.

Lemma prints_CommandConfig_init (key : string) (config : yaml) :
  mentions_superuser config = false ->
  emits is_printed (CommandConfig_init P key config).
Proof.
  induction config as [config IH] using on_fail_ind. intros N.
  intros st. rewrite CommandConfig_init_eq. revert st.
  change (emits is_printed
            (CommandConfig_body P key config (CommandConfig_init P key))).
  unfold CommandConfig_body.
  apply emits_bind; [apply prints_check_fields | intros ? _].
  apply emits_bind; [apply emits_py_getitem | intros run Hrun].
  destruct (py_getitem_ok P _ _ _ Hrun) as (entries & -> & _).
  cbn [mentions_superuser] in N. rewrite find_mentions_superuser in N.
  apply orb_false_iff in N. destruct N as (N1 & N2).
  apply emits_bind.
  { unfold privilege_gate, py_in. rewrite N1. apply emits_silent. reflexivity. }
  intros ? _. unfold load_rest.
  apply emits_bind; [prints_step | intros summary _].
  apply emits_bind; [prints_step | intros items _].
  apply emits_bind;
    [apply emits_mapM; intros; apply prints_SummaryConfig_init | intros scs _].
  apply emits_bind; [prints_step | intros o _].
  apply emits_bind; [prints_step | intros has _].
  apply emits_bind; [ | intros; prints_step].
  destruct has; [ | prints_step].
  apply emits_bind; [prints_step | intros v Hv].
  destruct (py_getitem_ok P _ _ _ Hv) as (entries' & E & L).
  injection E as <-. rewrite L in N2.
  apply emits_bind; [ | intros; prints_step].
  apply (IH entries v eq_refl L N2).
Qed.

(** The uid is probed on request only: when no command object of the
    document, nor any fallback below one, has a [superuser] key, loading
    the configuration spawns no process; all it can emit is diagnostics. *)
Theorem loading_without_superuser_spawns_nothing
    (entries : list (string * yaml)) (st : state P) :
  (forall key config, In (key, config) entries -> mentions_superuser config = false) ->
  exists evs,
    trace P (fst (read_commands P (YMap entries) st)) = trace P st ++ evs
    /\ Forall is_printed evs.
Proof.
  intros N. revert st.
  change (emits is_printed (read_commands P (YMap entries))).
  cbn [read_commands]. apply emits_mapM. intros [key config] I.
  apply prints_CommandConfig_init. apply (N key config I).
Qed.

(** *** The run never touches the archive before the file list is there *)

Lemma run_command_emits (Q : event -> Prop) (c : CommandConfig) :
  (forall cmd, Q (Spawned cmd)) -> emits Q (run_command P c).
Proof.
  intros H. induction c as [n s l o | n s l o f IH] using chain_ind;
    cbn [run_command]; apply emits_try;
    try (apply emits_silent; reflexivity); try exact IH;
    (apply emits_bind; [apply emits_subprocess; apply H | intros out _];
     apply emits_bind; [ | intros; apply emits_silent; reflexivity];
     apply emits_mapM; intros sc _; unfold summarize; apply emits_try;
     [apply emits_bind; [apply emits_subprocess; apply H | ];
      intros; apply emits_silent; reflexivity
     | apply emits_silent; reflexivity ]).
Qed.

Lemma generate_system_report_emits (document : yaml) :
  emits not_archive (generate_system_report P document).
Proof.
  unfold generate_system_report. apply emits_bind.
  - apply (emits_weaken loader_event); [intros [ | | | ]; simpl; tauto | ].
    apply only_loads_read_commands.
  - intros configs _. unfold assemble.
    apply emits_bind.
    { apply emits_foldM. intros acc c. unfold report_round.
      apply emits_bind; [apply run_command_emits; intros; exact I | ].
      intros [r | ] _; apply emits_silent; reflexivity. }
    intros acc _. apply emits_bind.
    { apply emits_silent. intros st. unfold generate_html.
      destruct (render_report P _ _); reflexivity. }
    intros html _. apply emits_bind.
    { apply emits_silent. intros st. unfold read_style.
      destruct (style_css P _); reflexivity. }
    intros css _. apply emits_bind.
    { apply emits_silent. intros st. unfold read_static.
      destruct (static_dir P _) as [tree | ]; [ | reflexivity].
      destruct (read_files_from_dir P tree); reflexivity. }
    intros; apply emits_silent; reflexivity.
Qed.

(** The archive is opened only once the whole file list is there: when
    [generate_system_report] does not return (loading exits or raises, the
    index cannot be rendered, [style.css] cannot be read, the static walk
    raises), [main] ends on the same failure (the same exit status, or an
    exception) in the same state, having neither opened the archive nor
    written an entry. *)
Theorem no_archive_without_file_list (document : yaml) (st : state P) :
  is_ok (snd (generate_system_report P document st)) = false ->
  exists evs,
    is_ok (snd (main P document st)) = false
    /\ same_failure (snd (generate_system_report P document st))
         (snd (main P document st))
    /\ fst (main P document st) = fst (generate_system_report P document st)
    /\ trace P (fst (main P document st)) = trace P st ++ evs
    /\ Forall not_archive evs.
Proof.
  intros N. destruct (generate_system_report_emits document st) as (evs & T & F).
  exists evs. unfold main.
  destruct (bind_not_ok P (generate_system_report P document)
              (fun files =>
                 bind (emit P ArchiveOpened)
                   (fun _ => bind (mapM (writestr P) files) (fun _ => ret tt)))
              st N) as (S & N').
  split; [exact N' | ]. split; [ | split; [exact S | rewrite S; split; assumption]].
  clear S N' T F. unfold bind at 1.
  destruct (generate_system_report P document st) as [st' [files | status | ]];
    [discriminate | reflexivity | exact I].
Qed.

(** When the file list is there and its names are strings, [main] opens
    the archive and writes one entry per file, in the order of the list,
    and returns. *)
Theorem main_writes_file_list_in_order
    (document : yaml) (st st' : state P) (files : list file_entry)
    (names : list string) :
  generate_system_report P document st = (st', Ok files) ->
  map fst files = map YStr names ->
  main P document st
  = (mkState P (world P st')
       (trace P st' ++ ArchiveOpened
          :: map (fun nc => ArchiveEntry (fst nc) (snd nc))
               (combine names (map snd files))),
     Ok tt).
Proof.
  intros G N.
  assert (F : Forall (fun e => exists n, fst e = YStr n) files).
  { clear G. revert names N. induction files as [ | [n c] files IH];
      intros [ | x names] N; try discriminate; constructor.
    - injection N as -> _. exists x. reflexivity.
    - injection N as _ N. apply (IH names N). }
  rewrite (main_writes P document st st' files G F).
  assert (E : archive_events files
              = map (fun nc => ArchiveEntry (fst nc) (snd nc))
                  (combine names (map snd files))).
  { clear G F. revert names N. induction files as [ | [n c] files IH];
      intros [ | x names] N; try discriminate; [reflexivity | ].
    injection N as -> N. unfold archive_events in *.
    cbn [flat_map fst snd map combine app]. f_equal. apply (IH names N). }
  rewrite E. reflexivity.
Qed.

End Events.

(** ** More about the report loop and the static walk *)

Section Report.

Context (P : Platform).

(** Failures of commands never end the run: once the configuration is
    loaded, on a host that renders the index, has [style.css] and whose
    static walk does not raise, [generate_system_report] returns a file
    list, whatever the scripts of the commands and of the summaries do. *)
Theorem command_failures_are_contained
    (document : yaml) (st st1 : state P) (configs : list CommandConfig) :
  read_commands P document st = (st1, Ok configs) ->
  (forall sub_reports w, render_report P sub_reports w <> None) ->
  (forall w, style_css P w <> None) ->
  (forall w tree, static_dir P w = Some tree -> read_files_from_dir P tree <> None) ->
  exists st' files, generate_system_report P document st = (st', Ok files).
Proof.
  intros L Hr Hs Ht. unfold generate_system_report.
  rewrite (bind_ok P _ _ _ _ _ L). unfold assemble.
  destruct (report_loop P configs ([], []) st1) as (st2 & results & _ & _ & EF).
  rewrite (bind_ok P _ _ _ _ _ EF). cbn [fst snd app].
  unfold bind at 1. unfold generate_html.
  destruct (render_report P (sub_reports_of results) (world P st2)) as [html | ] eqn:Eh;
    [ | destruct (Hr _ _ Eh)].
  unfold bind at 1. unfold read_style.
  destruct (style_css P (world P st2)) as [css | ] eqn:Ec; [ | destruct (Hs _ Ec)].
  unfold bind at 1. unfold read_static.
  destruct (static_dir P (world P st2)) as [tree | ] eqn:Et.
  - destruct (read_files_from_dir P tree) as [static | ] eqn:Es;
      [ | destruct (Ht _ _ Et Es)].
    eexists. eexists. reflexivity.
  - eexists. eexists. reflexivity.
Qed.

(** A command all of whose attempts fail is dropped: its round of the
    report loop leaves the sub-reports and the files as they were. *)
Theorem failed_command_is_dropped
    (c : CommandConfig) (st : state P) (w' : World P)
    (sub_reports : list SubReportResult) (files : list file_entry) :
  all_fail P c (world P st) w' ->
  report_round P (sub_reports, files) c st
  = (mkState P w' (trace P st ++ map (spawn_of P) (chain c)),
     Ok (sub_reports, files)).
Proof.
  intros F. unfold report_round.
  rewrite (bind_ok P _ _ _ _ _
             (run_command_all_fail P c _ w' F st eq_refl)).
  reflexivity.
Qed.

(** A command that produced a result while its own output file is unset
    (null or empty) enters the index and gets no file of its own. *)
Theorem result_without_output_file_is_not_filed
    (c ck : CommandConfig) (st : state P) (out : string) (wk : World P)
    (sub_reports : list SubReportResult) (files : list file_entry) :
  first_success P c (world P st) ck out wk ->
  truthy (output_file c) = false ->
  exists st' r,
    raw_output r = out
    /\ report_round P (sub_reports, files) c st
       = (st', Ok (sub_reports ++ [r], files)).
Proof.
  intros F T.
  destruct (run_command_first_success P c ck _ wk out F st eq_refl)
    as (st' & sums & trk & _ & R).
  exists st', (mkSubReportResult (name ck) out (output_file ck) sums).
  split; [reflexivity | ].
  unfold report_round. rewrite (bind_ok P _ _ _ _ _ R). cbn [fst snd].
  rewrite T. reflexivity.
Qed.

(** *** The static walk *)

Lemma read_listed_resolves (dir : list (string * fsnode)) (files : list string)
    (entries : list file_entry) :
  read_listed P dir files = Some entries ->
  forall file, In file files ->
    exists content text,
      fs_lookup file dir = Some (File content) /\ read_text P content = Some text.
Proof.
  revert entries. induction files as [ | f rest IH]; intros entries H file I;
    [destruct I | ].
  cbn [read_listed] in H.
  destruct (fs_lookup f dir) as [[content | ?] | ] eqn:L; try discriminate.
  destruct (read_text P content) as [text | ] eqn:T; [ | discriminate].
  destruct (read_listed P dir rest) as [l | ] eqn:R; [ | discriminate].
  destruct I as [<- | I];
    [exists content, text; split; assumption | apply (IH l eq_refl file I)].
Qed.

Lemma walk_rounds_resolves (root : fsnode) :
  forall dir entries,
    walk_rounds P dir root = Some entries ->
    forall file, In file (files_below root) ->
      exists content text,
        fs_lookup file dir = Some (File content) /\ read_text P content = Some text.
Proof.
  induction root as [content | children IH] using fsnode_tree_ind;
    intros dir entries H file I; [destruct I | ].
  cbn [walk_rounds] in H.
  apply app_opt_some in H. destruct H as (here & more & Hh & Hm & _).
  apply app_opt_some in Hm. destruct Hm as (calls & rounds & _ & Hr & _).
  cbn [files_below] in I. apply in_app_or in I. destruct I as [I | I].
  - apply (read_listed_resolves dir _ _ Hh file I).
  - clear Hh. revert rounds Hr I.
    induction IH as [ | [k node] rest Hnode _ IHrest]; intros rounds Hr I;
      [destruct I | ].
    apply in_app_or in I. destruct node as [c | sub].
    + destruct I as [[] | I]. apply (IHrest _ Hr I).
    + apply app_opt_some in Hr. destruct Hr as (x & y & Hx & Hy & _).
      destruct I as [I | I]; [apply (Hnode _ _ Hx file I) | apply (IHrest _ Hy I)].
Qed.

(** The static walk returns only when every file name listed anywhere in
    the tree, at any depth, is the name of a regular file of the directory
    the walk was called on, and that file reads as text: a file of a
    subdirectory whose name the top directory does not have makes [open]
    raise. *)
Theorem static_walk_needs_every_name_at_the_top
    (children : list (string * fsnode)) (entries : list file_entry) :
  read_files_from_dir P (Dir children) = Some entries ->
  forall file, In file (files_below (Dir children)) ->
    exists content text,
      fs_lookup file children = Some (File content)
      /\ read_text P content = Some text.
Proof.
  cbn [read_files_from_dir]. apply walk_rounds_resolves.
Qed.

End Report.

(** ** The further theorems on the example hosts *)

Section MoreWitnesses.

Import Demo.

Lemma run_command_yields_nothing_when_all_fail_witness :
  all_fail user no_attempt_works 0%nat 2%nat
  /\ run_command user no_attempt_works (start user 0%nat)
     = (mkState user 2%nat [Spawned "sh -c 'false'"; Spawned "sh -c 'ip addr'"],
        Ok None).
Proof.
  assert (F : all_fail user no_attempt_works 0%nat 2%nat).
  { eapply fail_next; [reflexivity | reflexivity | ].
    apply fail_last; reflexivity. }
  split; [exact F | ].
  exact (proj1 (run_command_yields_nothing_when_all_fail user no_attempt_works
                  (start user 0%nat)) 2%nat F).
Defined.

Lemma run_command_spawns_up_to_first_success_witness :
  exists st' r before,
    run_command user three_attempts (start user 0%nat) = (st', Ok (Some r))
    /\ chain three_attempts = before ++ chain echo_attempt
    /\ trace user st'
       = [] ++ map (spawn_of user) before ++ [spawn_of user echo_attempt]
           ++ map (summary_spawn_of user) (summary_configs echo_attempt).
Proof.
  apply (run_command_spawns_up_to_first_success user three_attempts echo_attempt
           (start user 0%nat) ("fallback-ok" ++ nl)%string 3%nat).
  eapply success_later; [reflexivity | reflexivity | ].
  eapply success_later; [reflexivity | reflexivity | ].
  apply success_here. reflexivity.
Defined.

Lemma summaries_follow_specs_witness :
  exists st' r,
    run_command user with_summaries (start user 0%nat) = (st', Ok (Some r))
    /\ exists ck wk,
         first_success user with_summaries 0%nat ck (raw_output r) wk
         /\ In ck (chain with_summaries)
         /\ result_name r = name ck
         /\ result_output_file r = output_file ck
         /\ Forall2
              (fun sc s =>
                 title s = summary_title sc
                 /\ (content s = empty_summary
                     \/ exists w w',
                          check_output user (sh_c user (summary_script sc))
                            (scripts_env user) (Some (raw_output r)) w
                          = (w', Some (content s))))
              (summary_configs ck) (summaries r).
Proof.
  eexists. eexists.
  refine ((fun R => conj R (summaries_follow_specs user with_summaries
                              (start user 0%nat) _ _ R)) _).
  reflexivity.
Defined.

Lemma invalid_fields_are_fatal_witness :
  valid_fields wrong_superuser = false
  /\ CommandConfig_init user "os" (YMap wrong_superuser) (start user 0%nat)
     = (mkState user 0%nat [Printed "Error: os config is invalid"], SysExit 1%Z).
Proof.
  split; [reflexivity | ].
  apply (invalid_fields_are_fatal user "os" wrong_superuser (start user 0%nat)).
  reflexivity.
Defined.

Lemma loaded_chain_mirrors_configuration_witness :
  exists st' c,
    CommandConfig_init user "disk" disk_object (start user 0%nat) = (st', Ok c)
    /\ Forall2 (spec_of "disk") [disk_object; disk_fallback] (chain c).
Proof.
  eexists. eexists.
  refine ((fun H => conj H (loaded_chain_mirrors_configuration user "disk" disk_object
                              (start user 0%nat) _ _ H)) _).
  reflexivity.
Defined.

Lemma read_commands_keeps_document_order_witness :
  exists st' configs,
    read_commands user (YMap plain_entries) (start user 0%nat) = (st', Ok configs)
    /\ map name configs = ["disk"; "os"]
    /\ Forall2 (fun entry c => spec_of (fst entry) (snd entry) c) plain_entries configs.
Proof.
  eexists. eexists.
  refine ((fun H => conj H (read_commands_keeps_document_order user plain_entries
                              (start user 0%nat) _ _ H)) _).
  reflexivity.
Defined.

Lemma root_privilege_only_probes_witness :
  is_root root (start root 0%nat) = (mkState root 1%nat [Spawned "id -u"], Ok true)
  /\ CommandConfig_init root "kernel" (YMap needs_root) (start root 0%nat)
     = CommandConfig_init root "kernel" (YMap (without "superuser" needs_root))
         (mkState root 1%nat [Spawned "id -u"]).
Proof.
  split; [reflexivity | ].
  apply (root_privilege_only_probes root "kernel" needs_root (YStr "dmesg")
           (YStr "kernel.txt") (YStr "required") (start root 0%nat)
           (mkState root 1%nat [Spawned "id -u"])); reflexivity.
Defined.

Lemma required_privilege_exits_with_message_witness :
  is_root user (start user 0%nat) = (mkState user 1%nat [Spawned "id -u"], Ok false)
  /\ CommandConfig_init user "kernel" (YMap needs_root) (start user 0%nat)
     = (mkState user 1%nat
          [Spawned "id -u";
           Printed "Error: You have insufficient permissions to run dmesg. No system report will be generated."],
        SysExit 1%Z).
Proof.
  split; [reflexivity | ].
  apply (required_privilege_exits_with_message user "kernel" needs_root (YStr "dmesg")
           (YStr "kernel.txt") (YStr "required") (start user 0%nat)
           (mkState user 1%nat [Spawned "id -u"])); reflexivity.
Defined.

Lemma failed_probe_raises_witness :
  exists w,
    CommandConfig_init odd "kernel" (YMap needs_root) (start odd 0%nat)
    = (mkState odd w [Spawned "id -u"], Raised).
Proof.
  apply (failed_probe_raises odd "kernel" needs_root (YStr "dmesg")
           (YStr "kernel.txt") (YStr "required") (start odd 0%nat));
    try reflexivity.
  intros uid w out H. injection H as _ <-. discriminate.
Defined.

Lemma incomplete_summary_is_fatal_witness :
  has_key "title" untitled_summary && has_key "run" untitled_summary = false
  /\ SummaryConfig_init user (YMap untitled_summary) (start user 0%nat)
     = (mkState user 0%nat [Printed "Error: summary config is incomplete"],
        SysExit 1%Z)
  /\ exists evs,
       is_ok (snd (main user (YMap [("disk", YMap disk_with_bad_summary)])
                     (start user 0%nat))) = false
       /\ trace user (fst (main user (YMap [("disk", YMap disk_with_bad_summary)])
                             (start user 0%nat)))
          = [] ++ evs
       /\ Forall loader_event evs.
Proof.
  destruct (incomplete_summary_is_fatal user untitled_summary eq_refl) as (A & B).
  split; [reflexivity | ]. split; [apply A | ].
  apply (B "disk" disk_with_bad_summary [raw_summary; YMap untitled_summary]).
  - reflexivity.
  - right. left. reflexivity.
  - left. reflexivity.
Defined.

Lemma loading_without_superuser_spawns_nothing_witness :
  exists evs,
    trace user (fst (read_commands user (YMap plain_entries) (start user 0%nat)))
    = [] ++ evs
    /\ Forall is_printed evs.
Proof.
  apply (loading_without_superuser_spawns_nothing user plain_entries (start user 0%nat)).
  intros key config [E | [E | []]]; injection E as <- <-; reflexivity.
Defined.

Lemma no_archive_without_file_list_witness :
  exists evs,
    is_ok (snd (main nested_host disk_document (start nested_host 0%nat))) = false
    /\ same_failure
         (snd (generate_system_report nested_host disk_document (start nested_host 0%nat)))
         (snd (main nested_host disk_document (start nested_host 0%nat)))
    /\ fst (main nested_host disk_document (start nested_host 0%nat))
       = fst (generate_system_report nested_host disk_document (start nested_host 0%nat))
    /\ trace nested_host (fst (main nested_host disk_document (start nested_host 0%nat)))
       = [] ++ evs
    /\ Forall not_archive evs.
Proof.
  apply (no_archive_without_file_list nested_host disk_document (start nested_host 0%nat)).
  reflexivity.
Defined.

Lemma main_writes_file_list_in_order_witness :
  main user net_document_with_output (start user 0%nat)
  = (mkState user 2%nat
       ([Spawned "sh -c 'false'"; Spawned "sh -c 'echo fallback-ok'"]
          ++ [ArchiveOpened;
              ArchiveEntry "net.txt" ("fallback-ok" ++ nl)%string;
              ArchiveEntry "system_report_summary.html" "<html>net</html>";
              ArchiveEntry "style.css" "body { margin: 0 }";
              ArchiveEntry "static/logo.svg" "<svg/>"]),
     Ok tt).
Proof.
  apply (main_writes_file_list_in_order user net_document_with_output
           (start user 0%nat)
           (mkState user 2%nat
              [Spawned "sh -c 'false'"; Spawned "sh -c 'echo fallback-ok'"])
           [(YStr "net.txt", ("fallback-ok" ++ nl)%string);
            (YStr "system_report_summary.html", "<html>net</html>");
            (YStr "style.css", "body { margin: 0 }");
            (YStr "static/logo.svg", "<svg/>")]
           ["net.txt"; "system_report_summary.html"; "style.css"; "static/logo.svg"]);
    reflexivity.
Defined.

Lemma command_failures_are_contained_witness :
  exists st' files,
    generate_system_report user three_commands (start user 0%nat) = (st', Ok files).
Proof.
  eapply (command_failures_are_contained user three_commands (start user 0%nat)).
  - reflexivity.
  - intros sub_reports w. discriminate.
  - intros w. discriminate.
  - intros w tree E. injection E as <-. discriminate.
Defined.

Lemma failed_command_is_dropped_witness :
  report_round user ([], []) no_attempt_works (start user 0%nat)
  = (mkState user 2%nat [Spawned "sh -c 'false'"; Spawned "sh -c 'ip addr'"],
     Ok ([], [])).
Proof.
  apply (failed_command_is_dropped user no_attempt_works (start user 0%nat) 2%nat [] []).
  eapply fail_next; [reflexivity | reflexivity | ].
  apply fail_last; reflexivity.
Defined.

Lemma result_without_output_file_is_not_filed_witness :
  exists st' r,
    raw_output r = ("Linux" ++ nl)%string
    /\ report_round user ([], []) unnamed_output (start user 0%nat)
       = (st', Ok ([r], [])).
Proof.
  apply (result_without_output_file_is_not_filed user unnamed_output unnamed_output
           (start user 0%nat) ("Linux" ++ nl)%string 1%nat [] []).
  - apply success_here. reflexivity.
  - reflexivity.
Defined.

Lemma static_walk_needs_every_name_at_the_top_witness :
  exists content text,
    fs_lookup "a.txt" [("a.txt", File "top"); ("sub", Dir [("a.txt", File "nested")])]
    = Some (File content)
    /\ read_text user content = Some text.
Proof.
  apply (static_walk_needs_every_name_at_the_top user
           [("a.txt", File "top"); ("sub", Dir [("a.txt", File "nested")])]
           [(YStr "static/a.txt", "top"); (YStr "static/a.txt", "nested");
            (YStr "static/a.txt", "top")]).
  - reflexivity.
  - right. left. reflexivity.
Defined.

Lemma read_files_from_dir_flat_witness :
  read_files_from_dir user (Dir flat_assets)
  = Some [(YStr "static/logo.svg", "<svg/>"); (YStr "static/script.js", "init();")]
  /\ read_files_from_dir user (Dir binary_assets) = None.
Proof.
  split.
  - apply (proj1 (read_files_from_dir_flat user flat_assets
                    ltac:(repeat constructor; simpl; intuition discriminate)
                    ltac:(repeat constructor; eexists; reflexivity))
             [("logo.svg", "<svg/>"); ("script.js", "init();")]).
    repeat constructor; eexists; split; reflexivity.
  - apply (proj2 (read_files_from_dir_flat user binary_assets
                    ltac:(repeat constructor; simpl; intuition discriminate)
                    ltac:(repeat constructor; eexists; reflexivity))
             "logo.png" (String "137"%char "PNG")).
    + right. left. reflexivity.
    + reflexivity.
Defined.

End MoreWitnesses.
